(** * Master Data Cleaner: loader, profiler and cleaning pipeline of [app.py]

    A shallow embedding of the decision logic of [src/app.py]: the CSV load
    with its encoding fallback, the data quality report, and the handler of
    the "Apply Cleaning" button.  The tabular work is done by pandas calls;
    each call that the script makes is embedded as a function of the same
    name over a row-major table. *)

From stdpp Require Import base numbers option list strings countable gmap.

Set Warnings "-clear-no-such-hyp".

(** ** Python values used by the script *)

Module Py.

(** A Python [str] is a sequence of Unicode code points. *)
Abbreviation str := (list N).

(** Code points of a text literal written with 8-bit characters. *)
Definition lit (s : string) : str :=
  Ascii.N_of_ascii <$> String.list_ascii_of_string s.

Definition comma : N := 44.
Definition colon : N := 58.

(** The exceptions that reach a handler of the script. *)
Inductive exn :=
| IndexError
| KeyError
| ValueError
| UnicodeDecodeError
| UnicodeEncodeError
| EmptyDataError.

#[global] Instance exn_eq_dec : EqDecision exn.
Proof. solve_decision. Defined.

(** A computation that returns or raises. *)
Abbreviation result A := (sum exn A).

#[global] Instance result_ret : MRet (sum exn) := fun A x => inr x.
#[global] Instance result_bind : MBind (sum exn) :=
  fun A B k m => match m with inl e => inl e | inr x => k x end.

(** [l[i]] on a list. *)
Definition index {A} (l : list A) (i : nat) : result A :=
  match l !! i with
  | Some x => inr x
  | None => inl IndexError
  end.

(** [s.split(sep)] for a one-character separator: never returns an empty
    list, and the empty string splits into one empty piece. *)
Fixpoint split (sep : N) (s : str) : list str :=
  match s with
  | [] => [[]]
  | c :: s' =>
      if N.eqb c sep then [] :: split sep s'
      else match split sep s' with
           | w :: ws => (c :: w) :: ws
           | [] => [[c]]
           end
  end.

(** [str.isspace] on one code point. *)
Definition isspace (c : N) : bool :=
  ((9 <=? c) && (c <=? 13) || (28 <=? c) && (c <=? 32)
   || (c =? 133) || (c =? 160) || (c =? 5760)
   || (8192 <=? c) && (c <=? 8202)
   || (c =? 8232) || (c =? 8233) || (c =? 8239) || (c =? 8287)
   || (c =? 12288))%N.

Fixpoint lstrip (s : str) : str :=
  match s with
  | c :: s' => if isspace c then lstrip s' else s
  | [] => []
  end.

Definition rstrip (s : str) : str := reverse (lstrip (reverse s)).

(** [s.strip()] *)
Definition strip (s : str) : str := rstrip (lstrip s).

(** Truth value of a string in a condition: non-empty. *)
Definition truthy (s : str) : bool :=
  match s with [] => false | _ :: _ => true end.

End Py.

Import Py.

(** ** Tables *)

Module Pandas.

(** A cell: the missing marker, or a numeric, text or boolean value.
    Numeric values are only ever compared, never computed with; two cells
    are the same value when they are equal here, the missing marker being
    equal to itself (as [duplicated] takes it). *)
Inductive Cell :=
| NA
| Num (z : Z)
| Text (s : str)
| Bool (b : bool).

#[global] Instance Cell_eq_dec : EqDecision Cell.
Proof. solve_decision. Defined.

Definition Cell_to_sum (c : Cell) : unit + Z + str + bool :=
  match c with
  | NA => inl (inl (inl tt))
  | Num z => inl (inl (inr z))
  | Text s => inl (inr s)
  | Bool b => inr b
  end.

Definition Cell_of_sum (x : unit + Z + str + bool) : Cell :=
  match x with
  | inl (inl (inl _)) => NA
  | inl (inl (inr z)) => Num z
  | inl (inr s) => Text s
  | inr b => Bool b
  end.

#[global] Instance Cell_countable : Countable Cell.
Proof.
  refine (inj_countable' Cell_to_sum Cell_of_sum _).
  intros []; reflexivity.
Defined.

(** A row keeps its index label through every transformation. *)
Record Row := mkRow { label : nat; cells : list Cell }.

#[global] Instance Row_eq_dec : EqDecision Row.
Proof. solve_decision. Defined.

Record DataFrame := mkDF { columns : list str; rows : list Row }.

#[global] Instance DataFrame_eq_dec : EqDecision DataFrame.
Proof. solve_decision. Defined.

(** [df.shape] *)
Definition shape (df : DataFrame) : nat * nat :=
  (length (rows df), length (columns df)).

(** [df.empty]: one of the two axes has length zero. *)
Definition empty (df : DataFrame) : bool :=
  match columns df, rows df with
  | _ :: _, _ :: _ => false
  | _, _ => true
  end.

Definition isnull (c : Cell) : bool :=
  match c with NA => true | _ => false end.

Definition notnull (c : Cell) : bool := negb (isnull c).

(** [df.dropna()]: keep the rows without any missing cell. *)
Definition dropna (df : DataFrame) : DataFrame :=
  mkDF (columns df)
       (List.filter (fun r => forallb notnull (cells r)) (rows df)).

Definition fill_cell (value c : Cell) : Cell :=
  if isnull c then value else c.

(** [df.fillna(value)] *)
Definition fillna (value : Cell) (df : DataFrame) : DataFrame :=
  mkDF (columns df)
       ((fun r => mkRow (label r) (fill_cell value <$> cells r)) <$> rows df).

(** The mask of [df.duplicated()] (keep='first'), scanning the rows in
    order with the values seen so far. *)
Fixpoint duplicated_from (seen : list (list Cell)) (rs : list Row)
  : list bool :=
  match rs with
  | [] => []
  | r :: rs' =>
      bool_decide (cells r ∈ seen) :: duplicated_from (cells r :: seen) rs'
  end.

(** [df.duplicated()]: an empty frame gives an empty mask. *)
Definition duplicated (df : DataFrame) : list bool :=
  if empty df then [] else duplicated_from [] (rows df).

(** [mask.sum()] *)
Definition mask_sum (mask : list bool) : nat :=
  length (List.filter id mask).

(** [df[mask]]: the rows at which the mask is set. *)
Fixpoint getitem_mask (rs : list Row) (mask : list bool) : list Row :=
  match rs, mask with
  | r :: rs', b :: mask' =>
      if b then r :: getitem_mask rs' mask' else getitem_mask rs' mask'
  | _, _ => []
  end.

(** [df.drop_duplicates()]: an empty frame is returned as it is, otherwise
    the rows not flagged by [duplicated]. *)
Definition drop_duplicates (df : DataFrame) : DataFrame :=
  if empty df then df
  else mkDF (columns df) (getitem_mask (rows df) (negb <$> duplicated df)).

(** [df.rename(columns=mappings)]: a column whose name is a key takes the
    mapped name, every other column keeps its name, and a key that names
    no column is ignored (errors='ignore' is the default). *)
Definition rename (mappings : gmap str str) (df : DataFrame) : DataFrame :=
  mkDF ((fun c => default c (mappings !! c)) <$> columns df) (rows df).

(** [df.copy()] *)
Definition copy (df : DataFrame) : DataFrame := df.

(** Positions of the columns called [col]. *)
Fixpoint positions_from (i : nat) (col : str) (cs : list str) : list nat :=
  match cs with
  | [] => []
  | c :: cs' =>
      if decide (c = col) then i :: positions_from (S i) col cs'
      else positions_from (S i) col cs'
  end.

(** The cells of the column at position [i], top to bottom. *)
Definition series_at (df : DataFrame) (i : nat) : list Cell :=
  (fun r => default NA (cells r !! i)) <$> rows df.

(** [df[col]] for a column label: one series when the label is unique, a
    sub-frame (here: its list of series) when the label is repeated. *)
Inductive Selected :=
| Series (cs : list Cell)
| Frame (css : list (list Cell)).

Definition getitem (df : DataFrame) (col : str) : result Selected :=
  match positions_from 0 col (columns df) with
  | [] => inl KeyError
  | [i] => inr (Series (series_at df i))
  | ps => inr (Frame (series_at df <$> ps))
  end.

(** [series.count()]: number of cells that are not missing. *)
Definition count (cs : list Cell) : nat :=
  length (List.filter notnull cs).

(** [df.isnull().sum()]: per column, the number of missing cells. *)
Definition isnull_sum (df : DataFrame) : list (str * nat) :=
  imap (fun i c => (c, length (List.filter isnull (series_at df i))))
       (columns df).

End Pandas.

Import Pandas.

(** ** The script *)

Module App.

(** *** Dataset load (lines 30-34) *)

(** The uploaded file is a byte buffer with a read position; every read
    starts at the position and moves it. *)
Record UploadedFile := mkFile {
  content : list Byte.byte;
  position : nat
}.

Definition upload (bytes : list Byte.byte) : UploadedFile := mkFile bytes 0.

(** [f.read1(n)] *)
Definition read1 (n : nat) (f : UploadedFile) : list N * UploadedFile :=
  let chunk := take n (drop (position f) (content f)) in
  (Byte.to_N <$> chunk, mkFile (content f) (position f + length chunk)).

Inductive Encoding := UTF8 | Latin1.

(** What a strict incremental decoder makes of the bytes it holds: the
    code points decoded so far and the bytes of a sequence that is well
    formed up to here but not finished, or a malformed sequence. *)
Inductive Decoded :=
| Complete (text : str) (pending : list N)
| Malformed.

Definition push (c : N) (d : Decoded) : Decoded :=
  match d with
  | Complete text pending => Complete (c :: text) pending
  | Malformed => Malformed
  end.

Definition between (lo hi b : N) : bool := ((lo <=? b) && (b <=? hi))%N.

Definition continuation (b : N) : bool := between 128 191 b.

Definition low6 (b : N) : N := N.land b 63.

(** Second byte of a three-byte sequence: no overlong form, no surrogate. *)
Definition second_of_3 (b0 b1 : N) : bool :=
  if (b0 =? 224)%N then between 160 191 b1
  else if (b0 =? 237)%N then between 128 159 b1
  else continuation b1.

(** The same test when the third byte has not arrived yet: the decoder
    rejects the overlong form at once, and a surrogate only with the
    third byte. *)
Definition second_of_3_open (b0 b1 : N) : bool :=
  if (b0 =? 224)%N then between 160 191 b1 else continuation b1.

(** Second byte of a four-byte sequence: no overlong form, at most
    U+10FFFF. *)
Definition second_of_4 (b0 b1 : N) : bool :=
  if (b0 =? 240)%N then between 144 191 b1
  else if (b0 =? 244)%N then between 128 143 b1
  else continuation b1.

Fixpoint utf8_decode (bs : list N) : Decoded :=
  match bs with
  | [] => Complete [] []
  | b0 :: r0 =>
      if (b0 <? 128)%N then push b0 (utf8_decode r0)
      else if between 194 223 b0 then
        match r0 with
        | [] => Complete [] bs
        | b1 :: r1 =>
            if continuation b1
            then push (N.lor (N.shiftl (N.land b0 31) 6) (low6 b1))
                      (utf8_decode r1)
            else Malformed
        end
      else if between 224 239 b0 then
        match r0 with
        | [] => Complete [] bs
        | b1 :: r1 =>
            match r1 with
            | [] => if second_of_3_open b0 b1 then Complete [] bs
                    else Malformed
            | b2 :: r2 =>
                if second_of_3 b0 b1 then
                  if continuation b2
                  then push (N.lor (N.shiftl (N.land b0 15) 12)
                               (N.lor (N.shiftl (low6 b1) 6) (low6 b2)))
                            (utf8_decode r2)
                  else Malformed
                else Malformed
            end
        end
      else if between 240 244 b0 then
        match r0 with
        | [] => Complete [] bs
        | b1 :: r1 =>
            if second_of_4 b0 b1 then
              match r1 with
              | [] => Complete [] bs
              | b2 :: r2 =>
                  if continuation b2 then
                    match r2 with
                    | [] => Complete [] bs
                    | b3 :: r3 =>
                        if continuation b3
                        then push (N.lor (N.shiftl (N.land b0 7) 18)
                                     (N.lor (N.shiftl (low6 b1) 12)
                                        (N.lor (N.shiftl (low6 b2) 6)
                                               (low6 b3))))
                                  (utf8_decode r3)
                        else Malformed
                    end
                  else Malformed
              end
            else Malformed
        end
      else Malformed
  end.

(** A whole byte string is valid UTF-8 when it decodes with nothing left
    pending. *)
Definition utf8_valid (bs : list N) : bool :=
  match utf8_decode bs with
  | Complete _ [] => true
  | _ => false
  end.

(** One decoding step on the pending bytes and a new chunk; [None] is a
    decoding error.  ISO-8859-1 maps every byte to the code point of the
    same value. *)
Definition decode_chunk (enc : Encoding) (pending chunk : list N)
  : option (str * list N) :=
  match enc with
  | Latin1 => Some (chunk, [])
  | UTF8 =>
      match utf8_decode (pending ++ chunk) with
      | Complete text pending' => Some (text, pending')
      | Malformed => None
      end
  end.

(** The reader asks the text wrapper for this many characters at a time,
    and the wrapper asks the buffer for as many bytes; every request of
    the wrapper is taken to be of this size. *)
Definition chunk_size : nat := N.to_nat 262144.

(** The reader pulls chunks until the buffer is exhausted or a chunk does
    not decode.  [None]: more than [fuel] chunks were needed. *)
Fixpoint read_chunks (fuel : nat) (enc : Encoding) (pending : list N)
    (acc : str) (f : UploadedFile) : option (result str * UploadedFile) :=
  match fuel with
  | 0 => None
  | S fuel' =>
      let (chunk, f') := read1 chunk_size f in
      match chunk with
      | [] =>
          match pending with
          | [] => Some (inr acc, f')
          | _ :: _ => Some (inl UnicodeDecodeError, f')
          end
      | _ :: _ =>
          match decode_chunk enc pending chunk with
          | None => Some (inl UnicodeDecodeError, f')
          | Some (text, pending') =>
              read_chunks fuel' enc pending' (acc ++ text) f'
          end
      end
  end.

(** The decoded text of what is left in the buffer.  Every chunk but the
    last is non-empty, so one more chunk than there are bytes left is
    always enough. *)
Definition read_text (enc : Encoding) (f : UploadedFile)
  : result str * UploadedFile :=
  default (inl UnicodeDecodeError, f)
    (read_chunks (S (length (content f) - position f)) enc [] [] f).

Section Loader.

(** The tokenizer and type inference of [pd.read_csv], applied to the
    decoded text. *)
Variable parse_csv : str -> result DataFrame.

(** [pd.read_csv(f, encoding=enc)] *)
Definition read_csv (enc : Encoding) (f : UploadedFile)
  : result DataFrame * UploadedFile :=
  let (text, f') := read_text enc f in
  (text ≫= parse_csv, f').

(** Lines 31-34: the second call is made on the same file object. *)
Definition load_csv (f : UploadedFile) : result DataFrame * UploadedFile :=
  match read_csv UTF8 f with
  | (inl UnicodeDecodeError, f') => read_csv Latin1 f'
  | r => r
  end.

End Loader.

(** *** Data quality report (lines 52-67) *)

Record Profile := mkProfile {
  null_counts : list (str * nat);
  total_nulls : nat;
  duplicate_count : nat;
  empty_cols : list str
}.

(** The condition [df[col].count() == 0] of the comprehension.  When the
    label selects a sub-frame the comparison yields a series, whose truth
    value raises. *)
Definition is_empty_col (df : DataFrame) (col : str) : result bool :=
  sel ← getitem df col;
  match sel with
  | Series cs => mret (Nat.eqb (count cs) 0)
  | Frame _ => inl ValueError
  end.

(** [[col for col in cols if df[col].count() == 0]] *)
Fixpoint empty_cols_of (df : DataFrame) (cols : list str)
  : result (list str) :=
  match cols with
  | [] => mret []
  | col :: cols' =>
      b ← is_empty_col df col;
      rest ← empty_cols_of df cols';
      mret (if b : bool then col :: rest else rest)
  end.

Definition profile (df : DataFrame) : result Profile :=
  let nc := isnull_sum df in
  let total := sum_list (snd <$> nc) in
  let dc := mask_sum (duplicated df) in
  ec ← empty_cols_of df (columns df);
  mret (mkProfile nc total dc ec).

(** *** Rename specification (lines 126-129) *)

(** One [old:new] pair: the key is evaluated before the value. *)
Definition parse_pair (item : str) : result (str * str) :=
  k ← index (split colon item) 0;
  v ← index (split colon item) 1;
  mret (strip k, strip v).

(** The dict comprehension: pairs are inserted left to right, a repeated
    key keeps the value of its last pair, and the first pair that raises
    aborts the whole comprehension. *)
Fixpoint dict_of_pairs (pairs : list str) (acc : gmap str str)
  : result (gmap str str) :=
  match pairs with
  | [] => mret acc
  | item :: pairs' =>
      kv ← parse_pair item;
      dict_of_pairs pairs' (<[kv.1 := kv.2]> acc)
  end.

Definition parse_mappings (rename_columns : str) : result (gmap str str) :=
  dict_of_pairs (split comma rename_columns) ∅.

(** *** Session state *)

(** Tables are objects: a variable of the script holds a reference, and
    every pandas call of the handler returns a new object. *)
Abbreviation ref := nat.

Inductive Action :=
| DroppedNulls
| FilledNulls
| RemovedDuplicates
| RenamedColumns (spec : str).

Record Report := mkReport {
  original_shape : nat * nat;
  cleaned_shape : nat * nat;
  null_summary : list (str * nat);
  duplicate_rows_removed : nat;
  actions_taken : list Action;
  suggestions : option str
}.

(** What the handler writes to the page: the warning of line 132, the
    success message of line 134, the preview of line 135, the two download
    buttons with their data (lines 142 and 185; the report button also
    with the content that was rendered), and the error message of line
    192. *)
Inductive UiEvent :=
| StWarning (e : exn)
| StSuccess
| StDataframe (preview : DataFrame)
| DownloadCsv (data : list Byte.byte)
| DownloadReport (r : Report) (data : list Byte.byte)
| StError (e : exn).

(** The global holders of the script ([g_null_counts] and
    [g_duplicate_count] are its [null_counts] and [duplicate_count], as
    computed when the file was loaded), the object store, and what has been
    written to the page so far (oldest first). *)
Record Session := mkSession {
  heap : gmap ref DataFrame;
  df : ref;
  g_null_counts : list (str * nat);
  g_duplicate_count : nat;
  gpt_suggestions : str;
  cleaned_df : option ref;
  ui : list UiEvent
}.

Definition St (A : Type) : Type := Session -> A * Session.

#[global] Instance St_ret : MRet St := fun A x s => (x, s).
#[global] Instance St_bind : MBind St :=
  fun A B k m s => let (x, s') := m s in k x s'.

Definition exec {A} (m : St A) (s : Session) : Session := (m s).2.

Definition get {A} (field : Session -> A) : St A := fun s => (field s, s).

Definition set_heap (h : gmap ref DataFrame) (s : Session) : Session :=
  mkSession h (df s) (g_null_counts s) (g_duplicate_count s)
            (gpt_suggestions s) (cleaned_df s) (ui s).

Definition set_cleaned_df (c : ref) : St unit := fun s =>
  (tt, mkSession (heap s) (df s) (g_null_counts s) (g_duplicate_count s)
                 (gpt_suggestions s) (Some c) (ui s)).

Definition emit (e : UiEvent) : St unit := fun s =>
  (tt, mkSession (heap s) (df s) (g_null_counts s) (g_duplicate_count s)
                 (gpt_suggestions s) (cleaned_df s) (ui s ++ [e])).

(** A new object is stored at a reference that is not in use. *)
Definition alloc (d : DataFrame) : St ref := fun s =>
  let l := fresh (dom (heap s)) in (l, set_heap (<[l := d]> (heap s)) s).

Definition deref (l : ref) : St DataFrame := fun s =>
  (default (mkDF [] []) (heap s !! l), s).

(** A method call [obj.f(...)] that builds its result as a new object. *)
Definition call (f : DataFrame -> DataFrame) (l : ref) : St ref :=
  d ← deref l; alloc (f d).

(** [df.head(n)] *)
Definition head (n : nat) (d : DataFrame) : DataFrame :=
  mkDF (columns d) (take n (rows d)).

(** *** Apply Cleaning (lines 112-192) *)

Record Selection := mkSelection {
  drop_nulls : bool;
  fill_nulls : bool;
  drop_dupes : bool;
  rename_columns : str
}.

Definition placeholder : Cell := Text (lit "N/A").

(** Lines 124-132: the rename, inside its try/except. *)
Definition rename_stage (rename_columns : str) (c : ref) : St ref :=
  if truthy rename_columns then
    match parse_mappings rename_columns with
    | inr mappings => call (rename mappings) c
    | inl e => emit (StWarning e);; mret c
    end
  else mret c.

(** Lines 113-132. *)
Definition clean (sel : Selection) : St ref :=
  d ← get df;
  c ← call copy d;
  c ← (if drop_nulls sel then call dropna c else mret c);
  c ← (if fill_nulls sel then call (fillna placeholder) c else mret c);
  c ← (if drop_dupes sel then call drop_duplicates c else mret c);
  rename_stage (rename_columns sel) c.

(** Lines 167-175: the bullet list of the report. *)
Definition actions_of (sel : Selection) : list Action :=
  (if drop_nulls sel then [DroppedNulls] else [])
  ++ (if fill_nulls sel then [FilledNulls] else [])
  ++ (if drop_dupes sel then [RemovedDuplicates] else [])
  ++ (if truthy (rename_columns sel)
      then [RenamedColumns (rename_columns sel)] else []).

(** Lines 158-179: the content handed to the PDF calls; [df.shape] is
    read here, after the cleaning. *)
Definition build_report (sel : Selection) (c : ref) : St Report :=
  d ← get df;
  original ← deref d;
  cleaned ← deref c;
  nc ← get g_null_counts;
  dc ← get g_duplicate_count;
  gpt ← get gpt_suggestions;
  mret (mkReport (shape original) (shape cleaned) nc dc (actions_of sel)
                 (if truthy gpt then Some gpt else None)).

(** [str.encode('utf-8')] on one code point; [None] when the call raises:
    a surrogate cannot be encoded (and a value above U+10FFFF is no code
    point). *)
Definition encode_char (c : N) : option (list N) :=
  if (c <? 128)%N then Some [c]
  else if (c <? 2048)%N then Some [192 + c / 64; 128 + c mod 64]%N
  else if (c <? 65536)%N then
    if between 55296 57343 c then None
    else Some [224 + c / 4096; 128 + (c / 64) mod 64; 128 + c mod 64]%N
  else if (c <? 1114112)%N then
    Some [240 + c / 262144; 128 + (c / 4096) mod 64;
          128 + (c / 64) mod 64; 128 + c mod 64]%N
  else None.

Fixpoint utf8_encode (text : str) : option (list N) :=
  match text with
  | [] => Some []
  | c :: text' =>
      match encode_char c, utf8_encode text' with
      | Some bs, Some rest => Some (bs ++ rest)
      | _, _ => None
      end
  end.

Definition byte_of (n : N) : Byte.byte := default Byte.x00 (Byte.of_N n).

Section Handler.

(** The external parts: Streamlit's display of a table, which returns or
    raises on a table it cannot show; the serializer of
    [df.to_csv(index=False)]; and the FPDF calls of lines 151-182 together
    with the reading of the file they write (line 184), which give the
    bytes of the document or raise. *)
Variable st_dataframe : DataFrame -> result unit.
Variable to_csv : DataFrame -> str.
Variable render_pdf : Report -> result (list Byte.byte).

(** Line 141: [cleaned_df.to_csv(index=False).encode('utf-8')]; [None]
    when the encoding raises. *)
Definition csv_download (cleaned : DataFrame) : option (list Byte.byte) :=
  match utf8_encode (to_csv cleaned) with
  | Some bs => Some (byte_of <$> bs)
  | None => None
  end.

(** Lines 150-192: the report inside its try/except.  The button is there
    only when every call of the block returned; otherwise the page gets
    the error message, and the handler goes on. *)
Definition report_stage (sel : Selection) (c : ref) : St (option Report) :=
  r ← build_report sel c;
  match render_pdf r with
  | inr data => emit (DownloadReport r data);; mret (Some r)
  | inl e => emit (StError e);; mret None
  end.

(** The handler of the button, lines 113-192.  An exception of the
    preview or of the encoding is not caught here: it leaves the handler
    with what was written so far, for the outer handler of line 194.  The
    value returned is the report behind the report button, if the button
    is there. *)
Definition apply_cleaning (sel : Selection) : St (result (option Report)) :=
  c ← clean sel;
  set_cleaned_df c;;
  emit StSuccess;;
  cleaned ← deref c;
  match st_dataframe (head 20 cleaned) with
  | inl e => mret (inl e)
  | inr _ =>
      emit (StDataframe (head 20 cleaned));;
      match csv_download cleaned with
      | None => mret (inl UnicodeEncodeError)
      | Some csv =>
          emit (DownloadCsv csv);;
          report ← report_stage sel c;
          mret (inr report)
      end
  end.

End Handler.

End App.

(** ** One run of the script (lines 19-197) *)

Module Script.

Import App.

Definition sep : N := 47.
Definition extsep : N := 46.

(** [s.rfind(c)] counted from [i]: the highest index of [c], or -1. *)
Fixpoint rfind_from (i : Z) (c : N) (s : str) : Z :=
  match s with
  | [] => -1
  | x :: s' =>
      let r := rfind_from (i + 1) c s' in
      if (0 <=? r)%Z then r else if N.eqb x c then i else -1
  end.

Definition rfind (c : N) (s : str) : Z := rfind_from 0 c s.

(** [p[i:j]] for indices that are not negative. *)
Definition slice (i j : Z) (p : str) : str :=
  take (Z.to_nat j - Z.to_nat i) (drop (Z.to_nat i) p).

(** [os.path.splitext] of [posixpath]: the extension starts at the last
    dot of the last path component, unless that component has nothing but
    dots before it. *)
Definition splitext (p : str) : str * str :=
  let sepIndex := rfind sep p in
  let dotIndex := rfind extsep p in
  if (sepIndex <? dotIndex)%Z then
    if existsb (fun x => negb (N.eqb x extsep)) (slice (sepIndex + 1) dotIndex p)
    then (take (Z.to_nat dotIndex) p, drop (Z.to_nat dotIndex) p)
    else (p, [])
  else (p, []).

(** The widgets as one run of the script sees them: the uploaded file with
    its name, whether each button was clicked for this run, and the
    cleaning options. *)
Record Widgets := mkWidgets {
  uploaded_file : option (str * UploadedFile);
  suggest_clicked : bool;
  selection : Selection;
  apply_clicked : bool
}.

(** How a run ends: waiting for a file (line 197), with the error message
    of the outer handler (line 195), or with the page built: the session,
    the empty columns of the quality report, the error of the suggestion
    request if it raised, and the report behind the report button if the
    cleaning ran and the button is there. *)
Inductive Outcome :=
| PleaseUpload
| ErrorLoading (e : exn)
| Ran (s : Session) (empty : list str) (ai_error : option exn)
      (report : option Report).

Section Run.

(** The external parts: the tokenizer of [pd.read_csv], [pd.read_excel],
    Streamlit's display of a table, the prompt text of lines 74-87, the
    chat completion call, and the serializer and the PDF calls of the
    cleaning handler. *)
Variable parse_csv : str -> result DataFrame.
Variable read_excel : UploadedFile -> result DataFrame * UploadedFile.
Variable st_dataframe : DataFrame -> result unit.
Variable build_prompt : DataFrame -> str.
Variable chat_complete : str -> result str.
Variable to_csv : DataFrame -> str.
Variable render_pdf : Report -> result (list Byte.byte).

(** Lines 28-36. *)
Definition load (name : str) (f : UploadedFile)
  : result DataFrame * UploadedFile :=
  let file_ext := (splitext name).2 in
  if decide (file_ext = lit ".csv") then load_csv parse_csv f
  else read_excel f.

(** Lines 72-99: [gpt_suggestions] keeps its initial value, the empty
    string, unless the button was clicked for this run and the call
    returned. *)
Definition suggest (clicked : bool) (t : DataFrame) : str * option exn :=
  if clicked then
    match chat_complete (build_prompt t) with
    | inr text => (text, None)
    | inl e => ([], Some e)
    end
  else ([], None).

(** Lines 28-67: the load, the preview of line 42 and the quality
    report. *)
Definition load_and_profile (name : str) (f : UploadedFile)
  : result (DataFrame * Profile) :=
  t ← (load name f).1;
  _ ← st_dataframe (head 20 t);
  p ← profile t;
  mret (t, p).

(** The whole run.  The global holders are set anew at the top of every
    run; an exception of the load, of the preview, of the quality report
    or one that leaves the cleaning handler ends the run in the outer
    handler. *)
Definition script (w : Widgets) : Outcome :=
  match uploaded_file w with
  | None => PleaseUpload
  | Some (name, f) =>
      match load_and_profile name f with
      | inl e => ErrorLoading e
      | inr (t, p) =>
          let (gpt, ai_error) := suggest (suggest_clicked w) t in
          let s := mkSession {[ 0 := t ]} 0 (null_counts p)
                             (duplicate_count p) gpt None [] in
          if apply_clicked w then
            match apply_cleaning st_dataframe to_csv render_pdf
                    (selection w) s with
            | (inr report, s') => Ran s' (empty_cols p) ai_error report
            | (inl e, _) => ErrorLoading e
            end
          else Ran s (empty_cols p) ai_error None
      end
  end.

End Run.

(** The parts of an outcome. *)
Definition report_of (o : Outcome) : option Report :=
  match o with
  | Ran _ _ _ report => report
  | _ => None
  end.

Definition session_of (o : Outcome) : option Session :=
  match o with
  | Ran s _ _ _ => Some s
  | _ => None
  end.

Definition ai_error_of (o : Outcome) : option exn :=
  match o with
  | Ran _ _ ai_error _ => ai_error
  | _ => None
  end.

End Script.

(** ** Sample inputs, and a small reader to run the loader on them *)

Module Samples.

Import App Script.

Definition simple_cell (field : str) : Cell :=
  match field with [] => NA | _ :: _ => Text field end.

(** Comma-separated fields, one record per line, blank lines skipped, no
    quoting; every non-empty field is kept as text.  No columns to parse
    is an [EmptyDataError]. *)
Definition simple_csv (text : str) : result DataFrame :=
  match List.filter truthy (split 10 text) with
  | [] => inl EmptyDataError
  | header :: body =>
      inr (mkDF (split comma header)
             (imap (fun i line => mkRow i (simple_cell <$> split comma line))
                   body))
  end.

(** The bytes of "name\ncaf\xe9\n": ISO-8859-1 text, not valid UTF-8. *)
Definition cafe_latin1 : list Byte.byte :=
  [Byte.x6e; Byte.x61; Byte.x6d; Byte.x65; Byte.x0a;
   Byte.x63; Byte.x61; Byte.x66; Byte.xe9; Byte.x0a].

(** The same text encoded as UTF-8. *)
Definition cafe_utf8 : list Byte.byte :=
  [Byte.x6e; Byte.x61; Byte.x6d; Byte.x65; Byte.x0a;
   Byte.x63; Byte.x61; Byte.x66; Byte.xc3; Byte.xa9; Byte.x0a].

Definition cafe_table : DataFrame :=
  mkDF [lit "name"] [mkRow 0 [Text [99; 97; 102; 233]%N]].

(** Five rows and two columns, with one missing cell and one row that
    repeats an earlier one. *)
Definition sample : DataFrame :=
  mkDF [lit "name"; lit "age"]
    [mkRow 0 [Text (lit "ann"); Num 31];
     mkRow 1 [Text (lit "bob"); NA];
     mkRow 2 [Text (lit "ann"); Num 31];
     mkRow 3 [Text (lit "cy"); Num 40];
     mkRow 4 [Text (lit "dee"); Num 25]].

(** A header without records. *)
Definition header_only : DataFrame := mkDF [lit "name"; lit "age"] [].

(** A session that holds one table, at reference 0. *)
Definition single (t : DataFrame) : Session :=
  mkSession {[ 0 := t ]} 0 [] 0 [] None [].

(** A rename text whose second pair has an empty old name. *)
Definition spec_empty_old : str := lit "a:b,:c".

(** A rename text whose second key names no column of [two_columns]. *)
Definition spec_unmatched : str := lit "a:x,zzz:y".

Definition one_column : DataFrame := mkDF [lit "a"] [].

Definition two_columns : DataFrame := mkDF [lit "a"; lit "b"] [].

(** "name,age" with the records ann/31, bob/(missing), ann/31. *)
Definition people_csv : list Byte.byte :=
  [Byte.x6e; Byte.x61; Byte.x6d; Byte.x65; Byte.x2c; Byte.x61; Byte.x67;
   Byte.x65; Byte.x0a;
   Byte.x61; Byte.x6e; Byte.x6e; Byte.x2c; Byte.x33; Byte.x31; Byte.x0a;
   Byte.x62; Byte.x6f; Byte.x62; Byte.x2c; Byte.x0a;
   Byte.x61; Byte.x6e; Byte.x6e; Byte.x2c; Byte.x33; Byte.x31; Byte.x0a].

Definition people : DataFrame :=
  mkDF [lit "name"; lit "age"]
    [mkRow 0 [Text (lit "ann"); Text (lit "31")];
     mkRow 1 [Text (lit "bob"); NA];
     mkRow 2 [Text (lit "ann"); Text (lit "31")]].

(** Stand-ins for the external parts: a spreadsheet reader that refuses
    every file, a display that shows every table, an empty prompt, a
    completion service that answers and one that is down. *)
Definition no_excel (f : UploadedFile) : result DataFrame * UploadedFile :=
  (inl ValueError, f).

Definition st_shown (t : DataFrame) : result unit := inr tt.

Definition no_prompt (t : DataFrame) : str := [].

Definition chat_tips (prompt : str) : result str := inr (lit "tips").

Definition chat_down (prompt : str) : result str := inl ValueError.

(** A stand-in serializer that writes the names of the columns, one per
    line. *)
Definition header_lines (t : DataFrame) : str :=
  concat ((fun col => col ++ [10%N]) <$> columns t).

(** A stand-in for the PDF calls with a core font: the column names, the
    rename text and the suggestions can be written only when they are
    within ISO-8859-1; the document is then "%PDF". *)
Definition latin1_text (text : str) : bool :=
  forallb (fun c => (c <? 256)%N) text.

Definition action_text (a : Action) : str :=
  match a with
  | RenamedColumns spec => spec
  | _ => []
  end.

Definition core_font_pdf (r : Report) : result (list Byte.byte) :=
  if forallb latin1_text ((null_summary r).*1)
     && forallb latin1_text (action_text <$> actions_taken r)
     && latin1_text (default [] (suggestions r))
  then inr [Byte.x25; Byte.x50; Byte.x44; Byte.x46]
  else inl UnicodeEncodeError.

(** A run on "people.csv" with the given buttons and selection. *)
Definition people_run (suggest apply : bool) (sel : Selection) : Widgets :=
  mkWidgets (Some (lit "people.csv", upload people_csv)) suggest sel apply.

Definition only_dedup : Selection := mkSelection false false true [].

(** The session right after [sample] was loaded and profiled. *)
Definition loaded : Session :=
  mkSession {[ 0 := sample ]} 0 [(lit "name", 0); (lit "age", 1)] 1 []
            None [].

End Samples.

(** ** Notions used to state the properties *)

Module Props.

Import App.

(** A table as the loader delivers it: the readers make repeated header
    names unique, every row has one cell per column, and a frame without
    columns has no rows. *)
Definition Table_wf (df : DataFrame) : Prop :=
  NoDup (columns df)
  /\ Forall (fun r => length (cells r) = length (columns df)) (rows df)
  /\ (columns df = [] -> rows df = []).

(** The rows of a table as a set of value tuples: full-row equality. *)
Definition distinct_rows (df : DataFrame) : gset (list Cell) :=
  list_to_set (cells <$> rows df).

(** The rows that [duplicated] does not flag, given the values seen
    before the first of them. *)
Definition keep_unseen (seen : list (list Cell)) (rs : list Row)
  : list Row :=
  getitem_mask rs (negb <$> duplicated_from seen rs).

(** A cell that a numeric column can hold: a number or the missing
    marker. *)
Definition numeric (c : Cell) : bool :=
  match c with
  | NA | Num _ => true
  | Text _ | Bool _ => false
  end.

Definition uniformly_numeric (cs : list Cell) : bool := forallb numeric cs.

(** A transformation guarded by its own flag. *)
Definition apply_if (flag : bool) (f : DataFrame -> DataFrame)
    (t : DataFrame) : DataFrame :=
  if flag then f t else t.

(** The rename as a guarded transformation: requested by a non-empty
    text, applied only when the whole text parses. *)
Definition rename_if (spec : str) (t : DataFrame) : DataFrame :=
  if truthy spec then
    match parse_mappings spec with
    | inr mappings => rename mappings t
    | inl _ => t
    end
  else t.

(** The four transformations in their fixed order, each on the output of
    the one before. *)
Definition pipeline (sel : Selection) (t : DataFrame) : DataFrame :=
  rename_if (rename_columns sel)
    (apply_if (drop_dupes sel) drop_duplicates
       (apply_if (fill_nulls sel) (fillna placeholder)
          (apply_if (drop_nulls sel) dropna t))).

(** A later state of the session that still holds every object of an
    earlier one, unchanged, and the same load-time globals. *)
Definition extends (s s' : Session) : Prop :=
  heap s ⊆ heap s'
  /\ df s' = df s
  /\ g_null_counts s' = g_null_counts s
  /\ g_duplicate_count s' = g_duplicate_count s
  /\ gpt_suggestions s' = gpt_suggestions s.

(** The two sides of an [old:new] pair, trimmed. *)
Definition old_name (item : str) : str :=
  strip (default [] (split colon item !! 0)).

Definition new_name (item : str) : str :=
  strip (default [] (split colon item !! 1)).

(** A malformed pair in the words of the specification: no colon, or an
    empty old name. *)
Definition malformed_pair (item : str) : Prop :=
  colon ∉ item \/ old_name item = [].

(** The new name that a list of pairs gives to a column label, if any:
    the last pair with that old name decides. *)
Fixpoint lookup_pairs (pairs : list str) (col : str) : option str :=
  match pairs with
  | [] => None
  | item :: rest =>
      match lookup_pairs rest col with
      | Some v => Some v
      | None => if decide (old_name item = col) then Some (new_name item)
                else None
      end
  end.

Definition renamed (pairs : list str) (col : str) : str :=
  default col (lookup_pairs pairs col).

(** The fallback in the words of the specification, to compare [load_csv]
    with: when the content is not valid UTF-8, the same full content is
    decoded again as ISO-8859-1. *)
Definition load_csv_spec (parse_csv : str -> result DataFrame)
    (bytes : list Byte.byte) : result DataFrame :=
  if utf8_valid (Byte.to_N <$> bytes)
  then (read_csv parse_csv UTF8 (upload bytes)).1
  else parse_csv (Byte.to_N <$> bytes).

(** The handler, run on a session whose [df] holds [t], leaves [cleaned]
    in [cleaned_df]. *)
Definition cleans_to (st_dataframe : DataFrame -> result unit)
    (to_csv : DataFrame -> str)
    (render_pdf : Report -> result (list Byte.byte))
    (sel : Selection) (s : Session) (t cleaned : DataFrame) : Prop :=
  heap s !! df s = Some t
  /\ exists c,
       cleaned_df (exec (apply_cleaning st_dataframe to_csv render_pdf sel) s)
       = Some c
       /\ heap (exec (apply_cleaning st_dataframe to_csv render_pdf sel) s)
          !! c = Some cleaned.

(** Decoding goes on after a first part: the text decoded so far is kept
    and the pending bytes are decoded again with the bytes that follow; a
    malformed first part stays malformed. *)
Definition prepend (text : str) (d : Decoded) : Decoded :=
  match d with
  | Complete text' pending => Complete (text ++ text') pending
  | Malformed => Malformed
  end.

Definition resume (more : list N) (d : Decoded) : Decoded :=
  match d with
  | Complete text pending => prepend text (utf8_decode (pending ++ more))
  | Malformed => Malformed
  end.

(** The number of cells of a table that satisfy a test, row by row. *)
Definition cells_where (f : Cell -> bool) (t : DataFrame) : nat :=
  sum_list ((fun r => length (List.filter f (cells r))) <$> rows t).

Definition is_placeholder (c : Cell) : bool := bool_decide (c = placeholder).

(** A table without a missing-marker cell. *)
Definition no_missing (t : DataFrame) : Prop :=
  forall r c, r ∈ rows t -> c ∈ cells r -> isnull c = false.

End Props.

Import App Script Props Samples.

(** ** Null handling *)

Lemma fill_cell_notnull (c : Cell) : notnull (fill_cell placeholder c) = true.
Proof. by destruct c. Qed.

Lemma dropna_rows_notnull (df : DataFrame) (r : Row) :
  r ∈ rows (dropna df) -> forallb notnull (cells r) = true.
Proof.
  unfold dropna; simpl. rewrite list_elem_of_In, filter_In. tauto.
Qed.

Lemma fill_cells_notnull (v : Cell) (cs : list Cell) :
  forallb notnull cs = true -> fill_cell v <$> cs = cs.
Proof.
  induction cs as [|c cs IH]; [done|]. cbn [forallb fmap list_fmap].
  intros [Hc Hcs]%andb_true_iff. f_equal; [by destruct c|by apply IH].
Qed.

Lemma fill_rows_notnull (v : Cell) (rs : list Row) :
  (forall r, r ∈ rs -> forallb notnull (cells r) = true) ->
  (fun r => mkRow (label r) (fill_cell v <$> cells r)) <$> rs = rs.
Proof.
  induction rs as [|r rs IH]; intros Hall; [done|].
  cbn [fmap list_fmap]. f_equal.
  - rewrite fill_cells_notnull by (apply Hall; left). by destruct r.
  - apply IH. intros r' Hr'. apply Hall. by right.
Qed.

(** C6. Drop-nulls followed by fill-nulls leaves no missing-marker cell in
    any row of the result (after drop-nulls there is nothing left to fill:
    the fill returns the table it was given), and fill-nulls alone keeps
    every row: the row count of its result is the row count of its input. *)
Theorem dropna_fillna_no_missing (df : DataFrame) :
  (forall r c, r ∈ rows (fillna placeholder (dropna df)) ->
               c ∈ cells r -> isnull c = false)
  /\ fillna placeholder (dropna df) = dropna df
  /\ length (rows (fillna placeholder df)) = length (rows df).
Proof.
  split; [|split].
  - intros r c Hr Hc. unfold fillna in Hr; simpl in Hr.
    apply list_elem_of_fmap in Hr as (r0 & -> & _). simpl in Hc.
    apply list_elem_of_fmap in Hc as (c0 & -> & _).
    pose proof (fill_cell_notnull c0) as H. unfold notnull in H.
    by apply negb_true_iff in H.
  - unfold fillna. rewrite fill_rows_notnull by apply dropna_rows_notnull.
    by destruct (dropna df).
  - unfold fillna; simpl. by rewrite length_fmap.
Qed.

Lemma series_at_fillna (v : Cell) (df : DataFrame) (j : nat) :
  (forall r, r ∈ rows df -> j < length (cells r)) ->
  series_at (fillna v df) j = fill_cell v <$> series_at df j.
Proof.
  unfold series_at, fillna; simpl. intros Hj.
  induction (rows df) as [|r rs IH]; [done|].
  simpl. f_equal.
  - destruct (lookup_lt_is_Some_2 (cells r) j) as [c Hc].
    { apply Hj. left. }
    by rewrite list_lookup_fmap, Hc.
  - apply IH. intros r' Hr'. apply Hj. by right.
Qed.

Lemma uniformly_numeric_elem (cs : list Cell) (c : Cell) :
  c ∈ cs -> numeric c = false -> uniformly_numeric cs = false.
Proof.
  intros Hin Hc. unfold uniformly_numeric.
  destruct (forallb numeric cs) eqn:E; [|done].
  rewrite forallb_forall in E. apply list_elem_of_In in Hin.
  specialize (E c Hin). congruence.
Qed.

(** C10. Fill-nulls puts the text "N/A" in the place of every missing cell,
    whatever else the column holds, and leaves every other cell, the row
    labels, the row count and the column names as they were; a column of
    numbers with a missing value holds the text "N/A" afterwards and is no
    longer uniformly numeric. *)
Theorem fillna_placeholder_cells (df : DataFrame) :
  columns (fillna placeholder df) = columns df
  /\ length (rows (fillna placeholder df)) = length (rows df)
  /\ (forall i r, rows df !! i = Some r ->
        exists r', rows (fillna placeholder df) !! i = Some r'
          /\ label r' = label r
          /\ length (cells r') = length (cells r)
          /\ forall j c, cells r !! j = Some c ->
               cells r' !! j
               = Some (if isnull c then Text (lit "N/A") else c))
  /\ (forall j, (forall r, r ∈ rows df -> j < length (cells r)) ->
        uniformly_numeric (series_at df j) = true ->
        NA ∈ series_at df j ->
        Text (lit "N/A") ∈ series_at (fillna placeholder df) j
        /\ uniformly_numeric (series_at (fillna placeholder df) j) = false).
Proof.
  repeat split.
  - unfold fillna; simpl. by rewrite length_fmap.
  - intros i r Hr. eexists. split.
    + unfold fillna; simpl. rewrite list_lookup_fmap, Hr. reflexivity.
    + simpl. repeat split.
      * by rewrite length_fmap.
      * intros j c Hc. by rewrite list_lookup_fmap, Hc.
  - rewrite series_at_fillna by done.
    apply list_elem_of_fmap. by exists NA.
  - rewrite series_at_fillna by done.
    apply (uniformly_numeric_elem _ (Text (lit "N/A"))); [|done].
    apply list_elem_of_fmap. by exists NA.
Qed.

(** A float column with one missing value, before and after the fill. *)
Example fillna_numeric_column :
  let t := mkDF [lit "age"] [mkRow 0 [Num 31]; mkRow 1 [NA]] in
  uniformly_numeric (series_at t 0) = true
  /\ series_at (fillna placeholder t) 0 = [Num 31; Text (lit "N/A")]
  /\ uniformly_numeric (series_at (fillna placeholder t) 0) = false.
Proof. by vm_compute. Qed.

(** ** Duplicate rows *)

Lemma duplicated_from_ext (seen seen' : list (list Cell)) (rs : list Row) :
  (forall k, k ∈ seen <-> k ∈ seen') ->
  duplicated_from seen rs = duplicated_from seen' rs.
Proof.
  revert seen seen'. induction rs as [|r rs IH]; intros seen seen' Hext.
  - done.
  - simpl. f_equal.
    + apply bool_decide_ext, Hext.
    + apply IH. intros k. rewrite !elem_of_cons, Hext. tauto.
Qed.

Lemma keep_unseen_cons (seen : list (list Cell)) (r : Row) (rs : list Row) :
  keep_unseen seen (r :: rs)
  = if bool_decide (cells r ∈ seen) then keep_unseen (cells r :: seen) rs
    else r :: keep_unseen (cells r :: seen) rs.
Proof. unfold keep_unseen; simpl. by destruct (bool_decide _). Qed.

Lemma keep_unseen_ext (seen seen' : list (list Cell)) (rs : list Row) :
  (forall k, k ∈ seen <-> k ∈ seen') ->
  keep_unseen seen rs = keep_unseen seen' rs.
Proof.
  intros Hext. unfold keep_unseen.
  by rewrite (duplicated_from_ext seen seen').
Qed.

Lemma keep_unseen_idem (seen : list (list Cell)) (rs : list Row) :
  keep_unseen seen (keep_unseen seen rs) = keep_unseen seen rs.
Proof.
  revert seen. induction rs as [|r rs IH]; intros seen; [done|].
  rewrite keep_unseen_cons. case_bool_decide as Hseen.
  - rewrite (keep_unseen_ext seen (cells r :: seen)); [apply IH|].
    intros k. rewrite elem_of_cons.
    split; [tauto | intros [->|?]; assumption].
  - rewrite keep_unseen_cons.
    rewrite bool_decide_eq_false_2 by assumption.
    f_equal. apply IH.
Qed.

Lemma drop_duplicates_rows (df : DataFrame) :
  empty df = false ->
  drop_duplicates df = mkDF (columns df) (keep_unseen [] (rows df)).
Proof.
  intros He. unfold drop_duplicates, duplicated. by rewrite He.
Qed.

Lemma drop_duplicates_empty (df : DataFrame) :
  empty df = true -> drop_duplicates df = df.
Proof. intros He. unfold drop_duplicates. by rewrite He. Qed.

(** C7. Drop-duplicates is idempotent: applied to its own result it returns
    that result, with the same columns and the same rows (labels and cells)
    in the same order. *)
Theorem drop_duplicates_idempotent (df : DataFrame) :
  drop_duplicates (drop_duplicates df) = drop_duplicates df.
Proof.
  destruct (empty df) eqn:He.
  - by rewrite !(drop_duplicates_empty df He).
  - rewrite (drop_duplicates_rows df He).
    assert (empty (mkDF (columns df) (keep_unseen [] (rows df))) = false)
      as He'.
    { destruct df as [[|c cs] [|r rs]]; try discriminate He.
      unfold empty. cbn [columns rows]. rewrite keep_unseen_cons.
      case_bool_decide as Hin; [|done]. by apply elem_of_nil in Hin. }
    rewrite (drop_duplicates_rows _ He'). simpl.
    f_equal. apply keep_unseen_idem.
Qed.


Lemma mask_sum_cons (b : bool) (mask : list bool) :
  mask_sum (b :: mask) = (if b then 1 else 0) + mask_sum mask.
Proof. unfold mask_sum. by destruct b. Qed.

(** Flagged rows and values not seen before add up to all rows. *)
Lemma duplicated_from_count (seen : list (list Cell)) (rs : list Row) :
  mask_sum (duplicated_from seen rs)
  + size ((list_to_set (cells <$> rs) : gset (list Cell)) ∖ list_to_set seen)
  = length rs.
Proof.
  revert seen. induction rs as [|r rs IH]; intros seen.
  - simpl. replace (∅ ∖ list_to_set seen : gset (list Cell)) with
      (∅ : gset (list Cell)) by set_solver.
    by rewrite size_empty.
  - cbn [duplicated_from fmap list_fmap list_to_set length].
    rewrite mask_sum_cons. specialize (IH (cells r :: seen)).
    cbn [list_to_set] in IH. case_bool_decide as Hseen.
    + replace (({[cells r]} ∪ list_to_set (cells <$> rs))
               ∖ list_to_set seen : gset (list Cell))
        with ((list_to_set (cells <$> rs) : gset (list Cell))
              ∖ ({[cells r]} ∪ list_to_set seen)).
      * lia.
      * apply set_eq. intros k. apply (elem_of_list_to_set (C:=gset _)) in Hseen.
        set_solver.
    + replace (({[cells r]} ∪ list_to_set (cells <$> rs))
               ∖ list_to_set seen : gset (list Cell))
        with ({[cells r]}
              ∪ ((list_to_set (cells <$> rs) : gset (list Cell))
                 ∖ ({[cells r]} ∪ list_to_set seen))).
      * rewrite size_union by set_solver. rewrite size_singleton. lia.
      * apply set_eq. intros k.
        assert (cells r ∉ (list_to_set seen : gset (list Cell))) as Hn
          by (by rewrite elem_of_list_to_set).
        destruct (decide (k = cells r)) as [->|]; set_solver.
Qed.

(** A row is flagged exactly when its values were seen before it: among
    the given values or in an earlier row. *)
Lemma duplicated_from_lookup (seen : list (list Cell)) (rs : list Row)
    (i : nat) (r : Row) :
  rs !! i = Some r ->
  exists b, duplicated_from seen rs !! i = Some b
    /\ (b = true <->
        cells r ∈ seen
        \/ exists j r', j < i /\ rs !! j = Some r' /\ cells r' = cells r).
Proof.
  revert seen i. induction rs as [|r0 rs IH]; intros seen i Hi; [done|].
  destruct i as [|i]; simpl in *.
  - injection Hi as ->. eexists; split; [done|].
    rewrite bool_decide_eq_true. split; [tauto|].
    intros [?|(j & _ & Hj & _)]; [done|lia].
  - destruct (IH (cells r0 :: seen) i Hi) as (b & Hb & Hiff).
    exists b; split; [done|]. rewrite Hiff, elem_of_cons. split.
    + intros [[Heq|Hin]|(j & r' & Hj & Hr' & Hc)].
      * right. exists 0, r0. split; [lia|]. by split.
      * by left.
      * right. exists (S j), r'. split; [lia|]. by split.
    + intros [Hin|(j & r' & Hj & Hr' & Hc)].
      * left. by right.
      * destruct j as [|j]; simpl in Hr'.
        -- injection Hr' as ->. left. by left.
        -- right. exists j, r'. split; [lia|]. by split.
Qed.

(** ** Data quality report *)

Lemma positions_from_notin (k : nat) (col : str) (cs : list str) :
  col ∉ cs -> positions_from k col cs = [].
Proof.
  revert k. induction cs as [|c cs IH]; intros k Hn; [done|].
  simpl. apply not_elem_of_cons in Hn as [Hne Hn].
  rewrite decide_False by congruence. by apply IH.
Qed.

(** A label that occurs once selects one position. *)
Lemma positions_from_NoDup (k i : nat) (col : str) (cs : list str) :
  NoDup cs -> cs !! i = Some col -> positions_from k col cs = [k + i].
Proof.
  revert k i. induction cs as [|c cs IH]; intros k i Hnd Hi; [done|].
  apply NoDup_cons in Hnd as [Hc Hnd]. destruct i as [|i]; simpl in *.
  - injection Hi as ->. rewrite decide_True by done.
    rewrite positions_from_notin by done. f_equal. lia.
  - rewrite decide_False.
    + rewrite (IH (S k) i) by done. f_equal. lia.
    + intros ->. apply Hc. by eapply list_elem_of_lookup_2.
Qed.

Lemma is_empty_col_unique (df : DataFrame) (i : nat) (col : str) :
  NoDup (columns df) -> columns df !! i = Some col ->
  is_empty_col df col = inr (Nat.eqb (count (series_at df i)) 0).
Proof.
  intros Hnd Hi. unfold is_empty_col, getitem.
  by rewrite (positions_from_NoDup 0 i col (columns df) Hnd Hi).
Qed.

(** When the condition is defined on every label, the comprehension is the
    filter of the labels by the condition. *)
Lemma empty_cols_of_filter (df : DataFrame) (cols : list str) :
  (forall col, col ∈ cols -> exists b, is_empty_col df col = inr b) ->
  empty_cols_of df cols
  = inr (List.filter
           (fun col => bool_decide (is_empty_col df col = inr true)) cols).
Proof.
  induction cols as [|col cols IH]; intros Hdef; [done|].
  simpl. destruct (Hdef col) as [b Hb]; [left|].
  rewrite Hb. simpl. rewrite IH.
  - simpl. destruct b.
    + by rewrite bool_decide_eq_true_2.
    + by rewrite bool_decide_eq_false_2.
  - intros col' Hin. apply Hdef. by right.
Qed.

Lemma profile_wf (df : DataFrame) :
  Table_wf df ->
  profile df
  = inr (mkProfile (isnull_sum df) (sum_list ((isnull_sum df).*2))
           (mask_sum (duplicated df))
           (List.filter
              (fun col => bool_decide (is_empty_col df col = inr true))
              (columns df))).
Proof.
  intros (Hnd & _ & _). unfold profile.
  rewrite empty_cols_of_filter; [done|].
  intros col Hin. apply list_elem_of_lookup in Hin as [i Hi].
  rewrite (is_empty_col_unique df i col Hnd Hi). eauto.
Qed.

Lemma count_zero_iff_all_missing (cs : list Cell) :
  count cs = 0 <-> forall c, c ∈ cs -> c = NA.
Proof.
  unfold count. induction cs as [|c cs IH]; simpl.
  - split; [|done]. intros _ c Hc. by apply elem_of_nil in Hc.
  - destruct c; simpl.
    + rewrite IH. split.
      * intros H c Hc. apply elem_of_cons in Hc as [->|Hc]; auto.
      * intros H c Hc. apply H. by right.
    + split; [discriminate|]. intros H. by specialize (H (Num z) ltac:(left)).
    + split; [discriminate|]. intros H. by specialize (H (Text s) ltac:(left)).
    + split; [discriminate|]. intros H. by specialize (H (Bool b) ltac:(left)).
Qed.

Ltac solve_Table_wf :=
  split; [by apply (bool_decide_unpack _); vm_compute
         | split; [by repeat constructor | by intros ?] ].

Lemma wf_empty_rows (df : DataFrame) :
  Table_wf df -> empty df = true -> rows df = [].
Proof.
  intros (_ & _ & Hcols) He. unfold empty in He.
  destruct (columns df) as [|c cs]; [by apply Hcols|].
  by destruct (rows df).
Qed.

(** C4. The duplicate-row count of the profile is the row count minus the
    number of distinct rows under full-row equality; it is the number of
    flagged rows, and a row is flagged exactly when an earlier row has the
    same cells, so that the first occurrence is never counted and each of
    the k-1 repeats in a run of k identical rows is. *)
Theorem duplicate_count_rows_minus_distinct (df : DataFrame) :
  Table_wf df ->
  exists p, profile df = inr p
    /\ size (distinct_rows df) <= length (rows df)
    /\ duplicate_count p = length (rows df) - size (distinct_rows df)
    /\ duplicate_count p = mask_sum (duplicated df)
    /\ forall i r, rows df !! i = Some r ->
         exists b, duplicated df !! i = Some b
           /\ (b = true <->
               exists j r', j < i /\ rows df !! j = Some r'
                            /\ cells r' = cells r).
Proof.
  intros Hwf. eexists. split; [by apply profile_wf|]. simpl.
  unfold duplicated, distinct_rows. destruct (empty df) eqn:He.
  - rewrite (wf_empty_rows df Hwf He).
    change (list_to_set (cells <$> [])) with (∅ : gset (list Cell)).
    rewrite size_empty. repeat split; try done; cbn; lia.
  - pose proof (duplicated_from_count [] (rows df)) as Hcount.
    change (list_to_set []) with (∅ : gset (list Cell)) in Hcount.
    rewrite difference_empty_L in Hcount.
    repeat split; try lia.
    intros i r Hr.
    destruct (duplicated_from_lookup [] (rows df) i r Hr) as (b & Hb & Hiff).
    exists b; split; [done|]. rewrite Hiff. split; [|by right].
    intros [Hin|H]; [by apply elem_of_nil in Hin|done].
Qed.

Lemma duplicate_count_rows_minus_distinct_witness :
  exists p, profile sample = inr p
    /\ size (distinct_rows sample) <= length (rows sample)
    /\ duplicate_count p = length (rows sample) - size (distinct_rows sample)
    /\ duplicate_count p = mask_sum (duplicated sample)
    /\ forall i r, rows sample !! i = Some r ->
         exists b, duplicated sample !! i = Some b
           /\ (b = true <->
               exists j r', j < i /\ rows sample !! j = Some r'
                            /\ cells r' = cells r).
Proof.
  apply (duplicate_count_rows_minus_distinct sample). solve_Table_wf.
Defined.

Example profile_sample :
  profile sample
  = inr (mkProfile [(lit "name", 0); (lit "age", 1)] 1 1 [])
  /\ duplicated sample = [false; false; true; false; false].
Proof. by vm_compute. Qed.

Lemma isnull_sum_no_rows (df : DataFrame) :
  rows df = [] -> isnull_sum df = (fun col => (col, 0)) <$> columns df.
Proof.
  intros Hrows. unfold isnull_sum, series_at. rewrite Hrows.
  exact (imap_const (fun col => (col, 0)) (columns df)).
Qed.

Lemma sum_list_zeros (cols : list str) :
  sum_list (((fun col => (col, 0)) <$> cols).*2) = 0.
Proof. induction cols as [|c cs IH]; [done|]. simpl. exact IH. Qed.

Lemma filter_all {A} (f : A -> bool) (l : list A) :
  (forall x, x ∈ l -> f x = true) -> List.filter f l = l.
Proof.
  induction l as [|x l IH]; intros Hall; [done|].
  simpl. rewrite Hall by left. f_equal. apply IH.
  intros y Hy. apply Hall. by right.
Qed.

Lemma series_all_missing (df : DataFrame) (i : nat) :
  (forall r, r ∈ rows df -> i < length (cells r)) ->
  (forall c, c ∈ series_at df i -> c = NA)
  <-> (forall r, r ∈ rows df -> cells r !! i = Some NA).
Proof.
  intros Hlen. unfold series_at. split.
  - intros H r Hr.
    destruct (lookup_lt_is_Some_2 (cells r) i (Hlen r Hr)) as [c Hc].
    rewrite Hc. f_equal. apply H. apply list_elem_of_fmap.
    exists r. by rewrite Hc.
  - intros H c Hc. apply list_elem_of_fmap in Hc as (r & -> & Hr).
    by rewrite (H r Hr).
Qed.

(** C9. The profiler succeeds on every table, the one without rows
    included.  It lists a column as empty exactly when the column's count
    of non-missing cells is zero, that is when every cell of the column is
    the missing marker; on a table without rows every column is listed and
    every count of the profile is zero. *)
Theorem empty_cols_iff_count_zero (df : DataFrame) :
  Table_wf df ->
  exists p, profile df = inr p
    /\ (forall i col, columns df !! i = Some col ->
          (col ∈ empty_cols p <-> count (series_at df i) = 0)
          /\ (col ∈ empty_cols p <->
              forall r, r ∈ rows df -> cells r !! i = Some NA))
    /\ (rows df = [] ->
          empty_cols p = columns df
          /\ null_counts p = (fun col => (col, 0)) <$> columns df
          /\ total_nulls p = 0
          /\ duplicate_count p = 0).
Proof.
  intros Hwf. pose proof Hwf as (Hnd & Hrect & _).
  eexists. split; [by apply profile_wf|]. cbn [empty_cols null_counts
    total_nulls duplicate_count]. split.
  - intros i col Hi.
    assert (col ∈ List.filter
              (fun col => bool_decide (is_empty_col df col = inr true))
              (columns df)
            <-> count (series_at df i) = 0) as Hcount.
    { rewrite list_elem_of_In, filter_In, <- list_elem_of_In.
      rewrite bool_decide_eq_true, (is_empty_col_unique df i col Hnd Hi).
      split.
      - intros [_ Heq]. injection Heq as Heq. by apply Nat.eqb_eq.
      - intros Hz. split; [by eapply list_elem_of_lookup_2|].
        f_equal. by apply Nat.eqb_eq. }
    split; [exact Hcount|]. rewrite Hcount, count_zero_iff_all_missing.
    apply series_all_missing. intros r Hr.
    rewrite Forall_forall in Hrect. rewrite (Hrect r Hr).
    by eapply lookup_lt_Some.
  - intros Hrows. repeat split.
    + apply filter_all. intros col Hin. apply bool_decide_eq_true.
      apply list_elem_of_lookup in Hin as [i Hi].
      rewrite (is_empty_col_unique df i col Hnd Hi).
      unfold series_at. by rewrite Hrows.
    + by apply isnull_sum_no_rows.
    + rewrite isnull_sum_no_rows by done. apply sum_list_zeros.
    + unfold duplicated, empty. rewrite Hrows. by destruct (columns df).
Qed.

Lemma empty_cols_iff_count_zero_witness :
  exists p, profile header_only = inr p
    /\ (forall i col, columns header_only !! i = Some col ->
          (col ∈ empty_cols p <-> count (series_at header_only i) = 0)
          /\ (col ∈ empty_cols p <->
              forall r, r ∈ rows header_only -> cells r !! i = Some NA))
    /\ (rows header_only = [] ->
          empty_cols p = columns header_only
          /\ null_counts p = (fun col => (col, 0)) <$> columns header_only
          /\ total_nulls p = 0
          /\ duplicate_count p = 0).
Proof.
  apply (empty_cols_iff_count_zero header_only). solve_Table_wf.
Defined.

Example profile_header_only :
  profile header_only
  = inr (mkProfile [(lit "name", 0); (lit "age", 0)] 0 0
           [lit "name"; lit "age"]).
Proof. by vm_compute. Qed.

(** A column that holds nothing but the missing marker is listed; one that
    holds a value is not. *)
Example profile_one_empty_column :
  profile (mkDF [lit "a"; lit "b"] [mkRow 0 [NA; Num 1]; mkRow 1 [NA; NA]])
  = inr (mkProfile [(lit "a", 2); (lit "b", 1)] 3 0 [lit "a"]).
Proof. by vm_compute. Qed.

(** A repeated label selects a sub-frame, and the condition raises. *)
Example profile_repeated_label :
  profile (mkDF [lit "a"; lit "a"] [mkRow 0 [NA; Num 1]]) = inl ValueError.
Proof. by vm_compute. Qed.

(** ** The cleaning handler *)

Lemma bind_run {A B} (m : St A) (k : A -> St B) (s s' : Session) (x : A) :
  m s = (x, s') -> (m ≫= k) s = k x s'.
Proof. unfold mbind, St_bind. by intros ->. Qed.

Lemma extends_refl (s : Session) : extends s s.
Proof. by repeat split. Qed.

Lemma extends_trans (s1 s2 s3 : Session) :
  extends s1 s2 -> extends s2 s3 -> extends s1 s3.
Proof.
  intros (Hsub1 & Ea & Eb & Ec & Ed) (Hsub2 & Ea' & Eb' & Ec' & Ed').
  repeat split; try congruence. by transitivity (heap s2).
Qed.

Lemma extends_lookup (s s' : Session) (l : ref) (d : DataFrame) :
  extends s s' -> heap s !! l = Some d -> heap s' !! l = Some d.
Proof. intros (Hsub & _) Hl. by eapply lookup_weaken. Qed.

(** A method call stores its result in a new object and touches nothing
    else. *)
Lemma call_run (f : DataFrame -> DataFrame) (l : ref) (s : Session)
    (d : DataFrame) :
  heap s !! l = Some d ->
  exists l' s', call f l s = (l', s')
    /\ heap s' !! l' = Some (f d)
    /\ extends s s' /\ ui s' = ui s /\ cleaned_df s' = cleaned_df s.
Proof.
  intros Hl. unfold call, deref, alloc.
  eexists _, _. split.
  { unfold mbind, St_bind. rewrite Hl. reflexivity. }
  simpl. split; [by rewrite lookup_insert_eq|].
  repeat split. apply insert_subseteq.
  apply not_elem_of_dom, is_fresh.
Qed.

Lemma guarded_call_run (flag : bool) (f : DataFrame -> DataFrame) (l : ref)
    (s : Session) (d : DataFrame) :
  heap s !! l = Some d ->
  exists l' s', (if flag then call f l else mret l) s = (l', s')
    /\ heap s' !! l' = Some (apply_if flag f d)
    /\ extends s s' /\ ui s' = ui s /\ cleaned_df s' = cleaned_df s.
Proof.
  intros Hl. destruct flag; [by apply call_run|].
  exists l, s. repeat split; try done.
Qed.

Lemma rename_stage_run (spec : str) (l : ref) (s : Session) (d : DataFrame) :
  heap s !! l = Some d ->
  exists l' s', rename_stage spec l s = (l', s')
    /\ heap s' !! l' = Some (rename_if spec d)
    /\ extends s s' /\ cleaned_df s' = cleaned_df s.
Proof.
  intros Hl. unfold rename_stage, rename_if.
  destruct (truthy spec).
  - destruct (parse_mappings spec) as [e|mappings].
    + eexists _, _. split; [reflexivity|]. simpl. by repeat split.
    + destruct (call_run (rename mappings) l s d Hl)
        as (l' & s' & E & Hl' & Hext & _ & Hc).
      by exists l', s'.
  - exists l, s. by repeat split.
Qed.

Lemma clean_run (sel : Selection) (s : Session) (t : DataFrame) :
  heap s !! df s = Some t ->
  exists c s', clean sel s = (c, s')
    /\ heap s' !! c = Some (pipeline sel t)
    /\ extends s s' /\ cleaned_df s' = cleaned_df s.
Proof.
  intros Ht. unfold clean, pipeline.
  rewrite (bind_run (get df) _ s s (df s)) by done.
  destruct (call_run copy (df s) s t Ht) as (c0 & s0 & E0 & L0 & X0 & _ & C0).
  rewrite (bind_run _ _ _ _ _ E0). unfold copy in L0.
  destruct (guarded_call_run (drop_nulls sel) dropna c0 s0 _ L0)
    as (c1 & s1 & E1 & L1 & X1 & _ & C1).
  rewrite (bind_run _ _ _ _ _ E1).
  destruct (guarded_call_run (fill_nulls sel) (fillna placeholder) c1 s1 _ L1)
    as (c2 & s2 & E2 & L2 & X2 & _ & C2).
  rewrite (bind_run _ _ _ _ _ E2).
  destruct (guarded_call_run (drop_dupes sel) drop_duplicates c2 s2 _ L2)
    as (c3 & s3 & E3 & L3 & X3 & _ & C3).
  rewrite (bind_run _ _ _ _ _ E3).
  destruct (rename_stage_run (rename_columns sel) c3 s3 _ L3)
    as (c4 & s4 & E4 & L4 & X4 & C4).
  exists c4, s4. split; [done|]. split; [done|]. split.
  - apply (extends_trans s s0); [done|]. apply (extends_trans s0 s1); [done|].
    apply (extends_trans s1 s2); [done|]. by apply (extends_trans s2 s3).
  - congruence.
Qed.

Ltac session_fields :=
  cbn [heap df g_null_counts g_duplicate_count gpt_suggestions cleaned_df ui
       fst snd].

(** The handler, run from a session whose [df] holds the table [t]: how
    it ends and what it leaves, by what the external parts do. *)
Lemma apply_cleaning_run (st_dataframe : DataFrame -> result unit)
    (to_csv : DataFrame -> str)
    (render_pdf : Report -> result (list Byte.byte))
    (sel : Selection) (s : Session) (t : DataFrame) :
  heap s !! df s = Some t ->
  exists c s1, clean sel s = (c, s1)
    /\ heap s1 !! c = Some (pipeline sel t)
    /\ extends s s1
    /\ let cleaned := pipeline sel t in
       let report :=
         mkReport (shape t) (shape cleaned) (g_null_counts s)
           (g_duplicate_count s) (actions_of sel)
           (if truthy (gpt_suggestions s) then Some (gpt_suggestions s)
            else None) in
       let page events :=
         mkSession (heap s1) (df s) (g_null_counts s) (g_duplicate_count s)
           (gpt_suggestions s) (Some c) (ui s1 ++ StSuccess :: events) in
       apply_cleaning st_dataframe to_csv render_pdf sel s
       = match st_dataframe (head 20 cleaned) with
         | inl e => (inl e, page [])
         | inr _ =>
             match csv_download to_csv cleaned with
             | None =>
                 (inl UnicodeEncodeError, page [StDataframe (head 20 cleaned)])
             | Some csv =>
                 match render_pdf report with
                 | inr data =>
                     (inr (Some report),
                      page [StDataframe (head 20 cleaned); DownloadCsv csv;
                            DownloadReport report data])
                 | inl e =>
                     (inr None,
                      page [StDataframe (head 20 cleaned); DownloadCsv csv;
                            StError e])
                 end
             end
         end.
Proof.
  intros Ht.
  destruct (clean_run sel s t Ht) as (c & s1 & E & Hc & Hext & _).
  exists c, s1. split; [done|]. split; [done|]. split; [done|].
  pose proof (extends_lookup s s1 _ _ Hext Ht) as Ht1.
  destruct Hext as (_ & Edf & Enc & Edc & Egpt).
  unfold apply_cleaning. rewrite (bind_run _ _ _ _ _ E).
  unfold mbind, St_bind, set_cleaned_df, emit, deref, get, mret, St_ret.
  session_fields. rewrite Hc, Edf, Enc, Edc, Egpt.
  cbn [default from_option]. unfold id.
  destruct (st_dataframe (head 20 (pipeline sel t))) as [e|u]; [done|].
  session_fields.
  destruct (csv_download to_csv (pipeline sel t)) as [csv|]; session_fields;
    [|by rewrite <- !app_assoc].
  unfold report_stage, build_report, mbind, St_bind, emit, deref, get, mret,
    St_ret.
  session_fields. rewrite Hc, Ht1. cbn [default from_option]. unfold id.
  destruct (render_pdf _) as [e|data]; session_fields;
    by rewrite <- !app_assoc.
Qed.

(** However the handler ends, it leaves the cleaned table in
    [cleaned_df]; what it has written starts with what the cleaning steps
    wrote and the success message. *)
Lemma apply_cleaning_session (st_dataframe : DataFrame -> result unit)
    (to_csv : DataFrame -> str)
    (render_pdf : Report -> result (list Byte.byte))
    (sel : Selection) (s : Session) (t : DataFrame) :
  heap s !! df s = Some t ->
  exists c s1 events, clean sel s = (c, s1)
    /\ heap s1 !! c = Some (pipeline sel t)
    /\ extends s s1
    /\ exec (apply_cleaning st_dataframe to_csv render_pdf sel) s
       = mkSession (heap s1) (df s) (g_null_counts s) (g_duplicate_count s)
           (gpt_suggestions s) (Some c) (ui s1 ++ StSuccess :: events).
Proof.
  intros Ht.
  destruct (apply_cleaning_run st_dataframe to_csv render_pdf sel s t Ht)
    as (c & s1 & Ec & Hc & Hext & E).
  cbv zeta in E. unfold exec. rewrite E. exists c, s1.
  destruct (st_dataframe _) as [e|[]]; [by eexists|].
  destruct (csv_download _ _) as [csv|]; [|by eexists].
  destruct (render_pdf _) as [e|data]; by eexists.
Qed.

(** When the report button is there: the preview and the encoding
    returned, and so did the PDF calls on the content that the handler
    built. *)
Lemma apply_cleaning_report (st_dataframe : DataFrame -> result unit)
    (to_csv : DataFrame -> str)
    (render_pdf : Report -> result (list Byte.byte))
    (sel : Selection) (s : Session) (t : DataFrame) (r : Report) :
  heap s !! df s = Some t ->
  (apply_cleaning st_dataframe to_csv render_pdf sel s).1 = inr (Some r) ->
  r = mkReport (shape t) (shape (pipeline sel t)) (g_null_counts s)
        (g_duplicate_count s) (actions_of sel)
        (if truthy (gpt_suggestions s) then Some (gpt_suggestions s)
         else None)
  /\ exists c s1 csv data,
       clean sel s = (c, s1)
       /\ st_dataframe (head 20 (pipeline sel t)) = inr tt
       /\ csv_download to_csv (pipeline sel t) = Some csv
       /\ render_pdf r = inr data
       /\ ui (exec (apply_cleaning st_dataframe to_csv render_pdf sel) s)
          = ui s1 ++ [StSuccess; StDataframe (head 20 (pipeline sel t));
                      DownloadCsv csv; DownloadReport r data].
Proof.
  intros Ht.
  destruct (apply_cleaning_run st_dataframe to_csv render_pdf sel s t Ht)
    as (c & s1 & Ec & Hc & Hext & E).
  cbv zeta in E. unfold exec. rewrite E.
  destruct (st_dataframe _) as [e|[]]; [done|].
  destruct (csv_download _ _) as [csv|]; [|done].
  destruct (render_pdf _) as [e|data] eqn:Hpdf; [done|].
  cbn [fst snd ui]. intros [= <-]. split; [done|].
  by exists c, s1, csv, data.
Qed.

(** C1. Whatever the table and the selection, the handler applies
    drop-nulls, fill-nulls, drop-duplicates and rename in this order, each
    only when its own flag or field is set and each to the output of the
    step before it: the table it leaves in [cleaned_df] is the composition
    of the four guarded transformations on the loaded table. *)
Theorem cleaning_applies_steps_in_order
    (st_dataframe : DataFrame -> result unit) (to_csv : DataFrame -> str)
    (render_pdf : Report -> result (list Byte.byte))
    (sel : Selection) (s : Session) (t : DataFrame) :
  heap s !! df s = Some t ->
  exists c,
    cleaned_df (exec (apply_cleaning st_dataframe to_csv render_pdf sel) s)
    = Some c
    /\ heap (exec (apply_cleaning st_dataframe to_csv render_pdf sel) s) !! c
       = Some (rename_if (rename_columns sel)
                 (apply_if (drop_dupes sel) drop_duplicates
                    (apply_if (fill_nulls sel) (fillna placeholder)
                       (apply_if (drop_nulls sel) dropna t)))).
Proof.
  intros Ht.
  destruct (apply_cleaning_session st_dataframe to_csv render_pdf sel s t Ht)
    as (c & s1 & events & _ & Hc & _ & E).
  exists c. rewrite E. by split.
Qed.

Lemma cleaning_applies_steps_in_order_witness :
  exists c,
    cleaned_df
      (exec (apply_cleaning st_shown header_lines core_font_pdf
               (mkSelection true false true (lit "name:who")))
            loaded) = Some c
    /\ heap
         (exec (apply_cleaning st_shown header_lines core_font_pdf
                  (mkSelection true false true (lit "name:who")))
               loaded) !! c
       = Some (rename_if (lit "name:who")
                 (apply_if true drop_duplicates
                    (apply_if false (fillna placeholder)
                       (apply_if true dropna sample)))).
Proof.
  apply (cleaning_applies_steps_in_order st_shown header_lines core_font_pdf
           (mkSelection true false true (lit "name:who")) loaded sample).
  reflexivity.
Defined.

(** Drop-nulls and drop-duplicates on [sample]: row 1 goes for its missing
    cell, row 2 as a repeat of row 0, and the survivors keep their order. *)
Example pipeline_sample :
  pipeline (mkSelection true false true []) sample
  = mkDF [lit "name"; lit "age"]
      [mkRow 0 [Text (lit "ann"); Num 31];
       mkRow 3 [Text (lit "cy"); Num 40];
       mkRow 4 [Text (lit "dee"); Num 25]].
Proof. by vm_compute. Qed.

(** Drop-duplicates sees the filled table: a row with a missing cell and a
    row that already holds the placeholder become one row. *)
Example pipeline_fill_before_dedup :
  pipeline (mkSelection false true true [])
    (mkDF [lit "a"] [mkRow 0 [NA]; mkRow 1 [Text (lit "N/A")]])
  = mkDF [lit "a"] [mkRow 0 [Text (lit "N/A")]].
Proof. by vm_compute. Qed.

(** C8. Cleaning works on new objects.  However the handler ends (with
    both downloads on the page, with the report failed, or with an
    exception that leaves it), [df] still refers to the table as it was
    loaded and every object of the session is unchanged.  Whenever the
    report button is there, the original shape in its report is the shape
    of the loaded table, whatever was selected; and the button is there
    when the preview, the encoding and the PDF calls return. *)
Theorem cleaning_keeps_original (st_dataframe : DataFrame -> result unit)
    (to_csv : DataFrame -> str)
    (render_pdf : Report -> result (list Byte.byte))
    (sel : Selection) (s : Session) (t : DataFrame) :
  heap s !! df s = Some t ->
  df (exec (apply_cleaning st_dataframe to_csv render_pdf sel) s) = df s
  /\ heap (exec (apply_cleaning st_dataframe to_csv render_pdf sel) s) !! df s
     = Some t
  /\ (forall l d, heap s !! l = Some d ->
        heap (exec (apply_cleaning st_dataframe to_csv render_pdf sel) s) !! l
        = Some d)
  /\ (forall r,
        (apply_cleaning st_dataframe to_csv render_pdf sel s).1
        = inr (Some r) ->
        original_shape r = shape t
        /\ exists data,
             DownloadReport r data
             ∈ ui (exec (apply_cleaning st_dataframe to_csv render_pdf sel)
                        s))
  /\ (st_dataframe (head 20 (pipeline sel t)) = inr tt ->
      is_Some (csv_download to_csv (pipeline sel t)) ->
      (forall r, exists data, render_pdf r = inr data) ->
      exists r,
        (apply_cleaning st_dataframe to_csv render_pdf sel s).1
        = inr (Some r)).
Proof.
  intros Ht. split; [|split; [|split; [|split]]].
  - destruct (apply_cleaning_session st_dataframe to_csv render_pdf sel s t
                Ht) as (c & s1 & events & _ & _ & Hext & E).
    by rewrite E.
  - destruct (apply_cleaning_session st_dataframe to_csv render_pdf sel s t
                Ht) as (c & s1 & events & _ & _ & Hext & E).
    rewrite E. by apply (extends_lookup s s1).
  - intros l d Hl.
    destruct (apply_cleaning_session st_dataframe to_csv render_pdf sel s t
                Ht) as (c & s1 & events & _ & _ & Hext & E).
    rewrite E. by apply (extends_lookup s s1).
  - intros r Hr.
    destruct (apply_cleaning_report _ _ _ _ _ _ _ Ht Hr)
      as (-> & c & s1 & csv & data & _ & _ & _ & _ & Hui).
    split; [done|]. exists data. rewrite Hui, elem_of_app. right.
    rewrite !elem_of_cons. tauto.
  - intros Hshow [csv Hcsv] Hpdf.
    destruct (apply_cleaning_run st_dataframe to_csv render_pdf sel s t Ht)
      as (c & s1 & _ & _ & _ & E).
    cbv zeta in E. rewrite E, Hshow, Hcsv.
    match goal with |- context [render_pdf ?r] =>
      destruct (Hpdf r) as [data ->] end.
    by eexists.
Qed.

Lemma cleaning_keeps_original_witness :
  df (exec (apply_cleaning st_shown header_lines core_font_pdf
              (mkSelection true true true (lit "name:who"))) loaded)
  = df loaded
  /\ heap (exec (apply_cleaning st_shown header_lines core_font_pdf
                   (mkSelection true true true (lit "name:who"))) loaded)
       !! df loaded = Some sample
  /\ original_shape
       (mkReport (5, 2) (3, 2) [(lit "name", 0); (lit "age", 1)] 1
          [DroppedNulls; FilledNulls; RemovedDuplicates;
           RenamedColumns (lit "name:who")] None) = shape sample
  /\ exists data,
       DownloadReport
         (mkReport (5, 2) (3, 2) [(lit "name", 0); (lit "age", 1)] 1
            [DroppedNulls; FilledNulls; RemovedDuplicates;
             RenamedColumns (lit "name:who")] None) data
       ∈ ui (exec (apply_cleaning st_shown header_lines core_font_pdf
                     (mkSelection true true true (lit "name:who"))) loaded).
Proof.
  destruct (cleaning_keeps_original st_shown header_lines core_font_pdf
              (mkSelection true true true (lit "name:who")) loaded sample)
    as (Hdf & Hheap & _ & Hreport & _); [reflexivity|].
  split; [exact Hdf|]. split; [exact Hheap|].
  apply Hreport. vm_compute. reflexivity.
Defined.

Example report_sample :
  (apply_cleaning st_shown header_lines core_font_pdf
     (mkSelection true false true []) loaded).1
  = inr (Some (mkReport (5, 2) (3, 2) [(lit "name", 0); (lit "age", 1)] 1
                 [DroppedNulls; RemovedDuplicates] None)).
Proof. by vm_compute. Qed.

(** A column name outside ISO-8859-1 (here the capital omega) is more
    than the core font can write: the page gets the error message in
    place of the report button, with the CSV download before it, and the
    loaded table is still in [df]. *)
Example report_fails_outside_latin1 :
  let s := mkSession {[ 0 := mkDF [[937%N]] [mkRow 0 [Num 1]] ]} 0
                     [([937%N], 0)] 0 [] None [] in
  let run := apply_cleaning st_shown header_lines core_font_pdf
               (mkSelection false false false []) s in
  run.1 = inr None
  /\ ui run.2
     = [StSuccess; StDataframe (mkDF [[937%N]] [mkRow 0 [Num 1]]);
        DownloadCsv [Byte.xce; Byte.xa9; Byte.x0a];
        StError UnicodeEncodeError]
  /\ heap run.2 !! df run.2 = Some (mkDF [[937%N]] [mkRow 0 [Num 1]]).
Proof. by vm_compute. Qed.

(** A surrogate in a column name cannot be encoded for the CSV download:
    the exception leaves the handler after the preview, with the cleaned
    table already in [cleaned_df]. *)
Example csv_encoding_fails_on_surrogate :
  let s := mkSession {[ 0 := mkDF [[55357%N]] [] ]} 0 [([55357%N], 0)] 0 []
                     None [] in
  let run := apply_cleaning st_shown header_lines core_font_pdf
               (mkSelection false false false []) s in
  run.1 = inl UnicodeEncodeError
  /\ ui run.2 = [StSuccess; StDataframe (mkDF [[55357%N]] [])]
  /\ cleaned_df run.2 = Some 1.
Proof. by vm_compute. Qed.

(** ** Rename *)

Lemma split_cons_inv (sep : N) (s : str) :
  exists w ws, split sep s = w :: ws.
Proof.
  destruct s as [|c s]; simpl; [by eexists _, _|].
  destruct (N.eqb c sep); [by eexists _, _|].
  destruct (split sep s); by eexists _, _.
Qed.

(** Without the separator there is one piece, the string itself. *)
Lemma split_without_sep (sep : N) (s : str) :
  sep ∉ s -> split sep s = [s].
Proof.
  induction s as [|c s IH]; intros Hn; [done|].
  apply not_elem_of_cons in Hn as [Hne Hn]. simpl.
  rewrite (proj2 (N.eqb_neq c sep)) by congruence.
  by rewrite IH.
Qed.

(** With the separator there are at least two pieces. *)
Lemma split_with_sep (sep : N) (s : str) :
  sep ∈ s -> exists a b rest, split sep s = a :: b :: rest.
Proof.
  induction s as [|c s IH]; intros Hin; [by apply elem_of_nil in Hin|].
  simpl. destruct (N.eqb_spec c sep) as [->|Hne].
  - destruct (split_cons_inv sep s) as (w & ws & ->). by eexists _, _, _.
  - apply elem_of_cons in Hin as [->|Hin]; [done|].
    destruct (IH Hin) as (a & b & rest & ->). by eexists _, _, _.
Qed.

Lemma parse_pair_without_colon (item : str) :
  colon ∉ item -> parse_pair item = inl IndexError.
Proof.
  intros Hn. unfold parse_pair. by rewrite (split_without_sep _ _ Hn).
Qed.

Lemma parse_pair_with_colon (item : str) :
  colon ∈ item -> parse_pair item = inr (old_name item, new_name item).
Proof.
  intros Hin. unfold parse_pair, old_name, new_name.
  by destruct (split_with_sep _ _ Hin) as (a & b & rest & ->).
Qed.

(** One pair without a colon makes the whole comprehension raise. *)
Lemma dict_of_pairs_raises (pairs : list str) (acc : gmap str str) :
  (exists item, item ∈ pairs /\ colon ∉ item) ->
  dict_of_pairs pairs acc = inl IndexError.
Proof.
  revert acc. induction pairs as [|item pairs IH]; intros acc (bad & Hin & Hn).
  - by apply elem_of_nil in Hin.
  - simpl. destruct (decide (colon ∈ item)) as [Hc|Hc].
    + rewrite (parse_pair_with_colon _ Hc). simpl. apply IH.
      apply elem_of_cons in Hin as [->|Hin]; [done|]. by exists bad.
    + by rewrite (parse_pair_without_colon _ Hc).
Qed.

(** When every pair has a colon the comprehension returns, and the
    dictionary maps a key to the new name of the last pair with that old
    name. *)
Lemma dict_of_pairs_returns (pairs : list str) (acc : gmap str str) :
  (forall item, item ∈ pairs -> colon ∈ item) ->
  exists m, dict_of_pairs pairs acc = inr m
    /\ forall k, m !! k = match lookup_pairs pairs k with
                          | Some v => Some v
                          | None => acc !! k
                          end.
Proof.
  revert acc. induction pairs as [|item pairs IH]; intros acc Hall.
  - by exists acc.
  - simpl. rewrite (parse_pair_with_colon item) by (apply Hall; left).
    simpl.
    destruct (IH (<[old_name item := new_name item]> acc)) as (m & -> & Hm).
    { intros item' Hin. apply Hall. by right. }
    exists m. split; [done|]. intros k. rewrite Hm.
    destruct (lookup_pairs pairs k); [done|].
    rewrite lookup_insert. by destruct (decide (old_name item = k)).
Qed.

Lemma truthy_nonempty (s : str) : s <> [] -> truthy s = true.
Proof. by destruct s. Qed.

Lemma parse_mappings_raises (spec : str) :
  (exists item, item ∈ split comma spec /\ colon ∉ item) ->
  parse_mappings spec = inl IndexError.
Proof. apply dict_of_pairs_raises. Qed.

(** C2, as the code has it. For every non-empty rename text in which some
    comma-separated pair has no colon, the rename step is skipped as a
    whole: the handler goes on with the very table it had, no pair is
    applied, no object is created, and one warning (for the index error) is
    written to the page.  A pair with an empty old name is not detected. *)
Theorem rename_skipped_when_pair_lacks_colon (spec : str) (c : ref)
    (s : Session) :
  spec <> [] ->
  (exists item, item ∈ split comma spec /\ colon ∉ item) ->
  (rename_stage spec c s).1 = c
  /\ heap (rename_stage spec c s).2 = heap s
  /\ ui (rename_stage spec c s).2 = ui s ++ [StWarning IndexError]
  /\ (forall t, rename_if spec t = t).
Proof.
  intros Hne Hbad. unfold rename_stage, rename_if.
  rewrite (truthy_nonempty spec Hne), (parse_mappings_raises spec Hbad).
  by repeat split.
Qed.

Lemma rename_skipped_when_pair_lacks_colon_witness :
  (rename_stage (lit "Name-NewName") 0 (single one_column)).1 = 0
  /\ heap (rename_stage (lit "Name-NewName") 0 (single one_column)).2
     = heap (single one_column)
  /\ ui (rename_stage (lit "Name-NewName") 0 (single one_column)).2
     = ui (single one_column) ++ [StWarning IndexError]
  /\ (forall t, rename_if (lit "Name-NewName") t = t).
Proof.
  apply (rename_skipped_when_pair_lacks_colon
           (lit "Name-NewName") 0 (single one_column)).
  - discriminate.
  - exists (lit "Name-NewName"). split.
    + by apply (bool_decide_unpack _); vm_compute.
    + by apply (bool_decide_unpack _); vm_compute.
Defined.

(** C2 as stated fails: the text "a:b,:c" has a pair with an empty old
    name, yet the pair "a:b" is applied (the column [a] becomes [b]) and no
    warning is written. *)
Lemma rename_applied_despite_empty_old_name :
  (exists item, item ∈ split comma spec_empty_old /\ malformed_pair item)
  /\ columns (rename_if spec_empty_old one_column) <> columns one_column
  /\ heap (rename_stage spec_empty_old 0 (single one_column)).2
       !! (rename_stage spec_empty_old 0 (single one_column)).1
     = Some (mkDF [lit "b"] [])
  /\ ui (rename_stage spec_empty_old 0 (single one_column)).2 = [].
Proof.
  split; [|split; [|split]].
  - exists (lit ":c"). split.
    + by apply (bool_decide_unpack _); vm_compute.
    + right. by vm_compute.
  - by vm_compute.
  - by vm_compute.
  - by vm_compute.
Qed.

Lemma parse_mappings_returns (spec : str) :
  (forall item, item ∈ split comma spec -> colon ∈ item) ->
  exists m, parse_mappings spec = inr m
    /\ forall k, m !! k = lookup_pairs (split comma spec) k.
Proof.
  intros Hall.
  destruct (dict_of_pairs_returns (split comma spec) ∅ Hall) as (m & E & Hm).
  exists m. split; [done|]. intros k. rewrite Hm.
  by destruct (lookup_pairs _ k).
Qed.

Lemma renamed_unmatched (pairs : list str) (col : str) :
  (forall item, item ∈ pairs -> old_name item <> col) ->
  renamed pairs col = col.
Proof.
  intros Hno. unfold renamed.
  enough (lookup_pairs pairs col = None) as -> by done.
  induction pairs as [|item pairs IH]; [done|]. simpl.
  rewrite IH by (intros item' Hin; apply Hno; by right).
  rewrite decide_False; [done|]. apply Hno. by left.
Qed.

(** C3, as the code has it. For every non-empty rename text whose pairs all
    have a colon, the rename is applied and nothing is written to the page:
    in the new table each column takes the new name of the last pair whose
    old name is the column's name, a column that no pair names keeps its
    name, an old name that is not a column of the table is ignored, and
    the rows are those of the input. *)
Theorem rename_applies_matching_pairs (spec : str) (c : ref) (s : Session)
    (t : DataFrame) :
  spec <> [] ->
  (forall item, item ∈ split comma spec -> colon ∈ item) ->
  heap s !! c = Some t ->
  ui (rename_stage spec c s).2 = ui s
  /\ heap (rename_stage spec c s).2 !! (rename_stage spec c s).1
     = Some (mkDF (renamed (split comma spec) <$> columns t) (rows t))
  /\ (forall col, (forall item, item ∈ split comma spec ->
                               old_name item <> col) ->
                  renamed (split comma spec) col = col)
  /\ (forall l d, heap s !! l = Some d ->
                  heap (rename_stage spec c s).2 !! l = Some d).
Proof.
  intros Hne Hall Ht. unfold rename_stage.
  rewrite (truthy_nonempty spec Hne).
  destruct (parse_mappings_returns spec Hall) as (m & -> & Hm).
  destruct (call_run (rename m) c s t Ht) as (c' & s' & -> & Hc' & Hext & Hui & _).
  simpl. split; [done|]. split; [|split].
  - rewrite Hc'. unfold rename. do 2 f_equal.
    apply list_fmap_ext. intros i col _. unfold renamed. by rewrite Hm.
  - apply renamed_unmatched.
  - intros l d Hl. by apply (extends_lookup s s').
Qed.

Lemma rename_applies_matching_pairs_witness :
  ui (rename_stage spec_unmatched 0 (single two_columns)).2
  = ui (single two_columns)
  /\ heap (rename_stage spec_unmatched 0 (single two_columns)).2
       !! (rename_stage spec_unmatched 0 (single two_columns)).1
     = Some (mkDF (renamed (split comma spec_unmatched)
                     <$> columns two_columns) (rows two_columns))
  /\ (forall col, (forall item, item ∈ split comma spec_unmatched ->
                               old_name item <> col) ->
                  renamed (split comma spec_unmatched) col = col)
  /\ (forall l d, heap (single two_columns) !! l = Some d ->
        heap (rename_stage spec_unmatched 0 (single two_columns)).2 !! l
        = Some d).
Proof.
  apply (rename_applies_matching_pairs spec_unmatched 0 (single two_columns)
           two_columns).
  - discriminate.
  - apply Forall_forall. by apply (bool_decide_unpack _); vm_compute.
  - reflexivity.
Defined.

(** C3 as stated fails: every pair of "a:x,zzz:y" parses and [zzz] is not a
    column, yet the step is not skipped: [a] is renamed to [x] and no
    warning is written. *)
Lemma rename_applied_despite_unmatched_key :
  Forall (fun item => colon ∈ item) (split comma spec_unmatched)
  /\ (exists item, item ∈ split comma spec_unmatched
                   /\ old_name item ∉ columns two_columns)
  /\ heap (rename_stage spec_unmatched 0 (single two_columns)).2
       !! (rename_stage spec_unmatched 0 (single two_columns)).1
     = Some (mkDF [lit "x"; lit "b"] [])
  /\ ui (rename_stage spec_unmatched 0 (single two_columns)).2 = [].
Proof.
  split; [|split; [|split]].
  - by apply (bool_decide_unpack _); vm_compute.
  - exists (lit "zzz:y"). split.
    + by apply (bool_decide_unpack _); vm_compute.
    + by apply (bool_decide_unpack _); vm_compute.
  - by vm_compute.
  - by vm_compute.
Qed.

(** ** Dataset load *)

Lemma read1_fresh (bytes : list Byte.byte) :
  length bytes <= chunk_size ->
  read1 chunk_size (upload bytes)
  = (Byte.to_N <$> bytes, mkFile bytes (length bytes)).
Proof.
  intros Hlen. unfold read1, upload. cbn [content position].
  rewrite drop_0, take_ge by done. reflexivity.
Qed.

Lemma read1_exhausted (bytes : list Byte.byte) :
  read1 chunk_size (mkFile bytes (length bytes))
  = ([], mkFile bytes (length bytes)).
Proof.
  unfold read1. cbn [content position].
  rewrite drop_all, take_nil. cbn [length fmap list_fmap].
  by rewrite Nat.add_0_r.
Qed.

Lemma read_chunks_step (fuel : nat) (enc : Encoding) (pending : list N)
    (acc : str) (f f' : UploadedFile) (chunk : list N) :
  read1 chunk_size f = (chunk, f') -> chunk <> [] ->
  read_chunks (S fuel) enc pending acc f
  = match decode_chunk enc pending chunk with
    | None => Some (inl UnicodeDecodeError, f')
    | Some (text, pending') => read_chunks fuel enc pending' (acc ++ text) f'
    end.
Proof.
  intros E Hne. cbn [read_chunks]. rewrite E. by destruct chunk.
Qed.

Lemma read_chunks_eof (fuel : nat) (enc : Encoding) (pending : list N)
    (acc : str) (f f' : UploadedFile) :
  0 < fuel ->
  read1 chunk_size f = ([], f') ->
  read_chunks fuel enc pending acc f
  = match pending with
    | [] => Some (inr acc, f')
    | _ :: _ => Some (inl UnicodeDecodeError, f')
    end.
Proof.
  intros Hfuel E. destruct fuel; [lia|]. cbn [read_chunks]. by rewrite E.
Qed.

(** The fuel of [read_text] is never used up: every chunk but the last
    moves the read position forward. *)
Lemma read_chunks_total (fuel : nat) (enc : Encoding) (pending : list N)
    (acc : str) (f : UploadedFile) :
  length (content f) - position f < fuel ->
  is_Some (read_chunks fuel enc pending acc f).
Proof.
  revert pending acc f. induction fuel as [|fuel IH]; intros pending acc f Hf.
  - lia.
  - cbn [read_chunks]. unfold read1.
    destruct (take chunk_size (drop (position f) (content f)))
      as [|b chunk] eqn:E.
    + cbn [fmap list_fmap]. by destruct pending.
    + cbn [fmap list_fmap].
      destruct (decode_chunk enc pending (Byte.to_N b :: (Byte.to_N <$> chunk)))
        as [[text pending']|]; [|done].
      apply IH. cbn [content position length].
      assert (length (b :: chunk) <= length (content f) - position f).
      { rewrite <- E, length_take, length_drop. lia. }
      cbn [length] in *. lia.
Qed.

Lemma read_text_returns (enc : Encoding) (f : UploadedFile) :
  read_chunks (S (length (content f) - position f)) enc [] [] f
  = Some (read_text enc f).
Proof.
  unfold read_text.
  destruct (read_chunks_total (S (length (content f) - position f)) enc [] []
              f) as [r ->]; [lia|done].
Qed.

Lemma chunk_size_pos : 0 < chunk_size.
Proof. unfold chunk_size. lia. Qed.

Lemma chunk_size_ge (n : N) : (n <= 262144)%N -> N.to_nat n <= chunk_size.
Proof. unfold chunk_size. lia. Qed.

#[local] Opaque chunk_size.





(** A failed UTF-8 read of a file that fits in one chunk leaves the read
    position at the end of the buffer. *)
Lemma read_text_utf8_fails (bytes : list Byte.byte) :
  length bytes <= chunk_size ->
  utf8_valid (Byte.to_N <$> bytes) = false ->
  read_text UTF8 (upload bytes)
  = (inl UnicodeDecodeError, mkFile bytes (length bytes)).
Proof.
  intros Hlen Hbad. unfold read_text. cbn [content position upload].
  rewrite Nat.sub_0_r.
  assert (Byte.to_N <$> bytes <> []) as Hne.
  { intros E. by rewrite E in Hbad. }
  assert (0 < length bytes) as Hpos.
  { destruct bytes; [done|simpl; lia]. }
  rewrite (read_chunks_step _ _ _ _ _ _ _ (read1_fresh bytes Hlen) Hne).
  unfold decode_chunk. cbn [app]. unfold utf8_valid in Hbad.
  destruct (utf8_decode (Byte.to_N <$> bytes)) as [text pending|]; [|done].
  destruct pending as [|p ps]; [discriminate Hbad|].
  by rewrite (read_chunks_eof _ _ _ _ _ _ Hpos (read1_exhausted bytes)).
Qed.

Lemma read_text_exhausted (enc : Encoding) (bytes : list Byte.byte) :
  read_text enc (mkFile bytes (length bytes))
  = (inr [], mkFile bytes (length bytes)).
Proof.
  unfold read_text. cbn [content position]. rewrite Nat.sub_diag.
  by rewrite (read_chunks_eof _ _ _ _ _ _ Nat.lt_0_1 (read1_exhausted bytes)).
Qed.


(** C5, what the code does. When the content is not valid UTF-8 (and fits
    in one read), the second [read_csv] is made on the file object that the
    first call has read to its end: it decodes nothing, finds no columns,
    and the load ends in an [EmptyDataError] instead of the table that the
    ISO-8859-1 content denotes. *)
Theorem load_csv_fallback_reads_nothing
    (parse_csv : str -> result DataFrame) (bytes : list Byte.byte) :
  parse_csv [] = inl EmptyDataError ->
  length bytes <= chunk_size ->
  utf8_valid (Byte.to_N <$> bytes) = false ->
  load_csv parse_csv (upload bytes)
  = (inl EmptyDataError, mkFile bytes (length bytes)).
Proof.
  intros Hparse Hlen Hbad. unfold load_csv, read_csv.
  rewrite (read_text_utf8_fails bytes Hlen Hbad). cbn [mbind result_bind].
  rewrite read_text_exhausted. cbn [mbind result_bind]. by rewrite Hparse.
Qed.

Lemma load_csv_fallback_reads_nothing_witness :
  load_csv simple_csv (upload cafe_latin1)
  = (inl EmptyDataError, mkFile cafe_latin1 (length cafe_latin1)).
Proof.
  apply (load_csv_fallback_reads_nothing simple_csv cafe_latin1).
  - reflexivity.
  - apply (chunk_size_ge 10). lia.
  - by vm_compute.
Defined.

(** The fallback of the specification on the same bytes gives the table. *)
Example load_csv_spec_cafe :
  load_csv_spec simple_csv cafe_latin1 = inr cafe_table.
Proof. by vm_compute. Qed.

(** Valid UTF-8 content loads at the first attempt. *)
Example load_csv_cafe_utf8 :
  (load_csv simple_csv (upload cafe_utf8)).1 = inr cafe_table.
Proof. by vm_compute. Qed.

(** ** More on duplicate rows *)

Lemma keep_unseen_length (seen : list (list Cell)) (rs : list Row) :
  length (keep_unseen seen rs) + mask_sum (duplicated_from seen rs)
  = length rs.
Proof.
  revert seen. induction rs as [|r rs IH]; intros seen; [done|].
  rewrite keep_unseen_cons. cbn [duplicated_from length].
  rewrite mask_sum_cons. specialize (IH (cells r :: seen)).
  case_bool_decide; cbn [length]; lia.
Qed.

Lemma drop_duplicates_length (df : DataFrame) :
  length (rows (drop_duplicates df)) + mask_sum (duplicated df)
  = length (rows df).
Proof.
  unfold drop_duplicates, duplicated. destruct (empty df) eqn:He.
  - cbn. lia.
  - cbn [rows]. apply keep_unseen_length.
Qed.

(** X1. Drop-duplicates removes exactly the rows that the quality report
    counted: the rows it keeps and the duplicate count of the table add up
    to the table's row count, for every table. *)
Theorem drop_duplicates_removes_duplicate_count (df : DataFrame) :
  length (rows (drop_duplicates df)) + mask_sum (duplicated df)
  = length (rows df)
  /\ (forall p, profile df = inr p ->
        length (rows (drop_duplicates df)) + duplicate_count p
        = length (rows df)).
Proof.
  split; [apply drop_duplicates_length|].
  unfold profile. intros p.
  destruct (empty_cols_of df (columns df)) as [e|ec]; [done|].
  cbn. intros [= <-]. cbn. apply drop_duplicates_length.
Qed.

Lemma keep_unseen_sublist (seen : list (list Cell)) (rs : list Row) :
  keep_unseen seen rs `sublist_of` rs.
Proof.
  revert seen. induction rs as [|r rs IH]; intros seen; [done|].
  rewrite keep_unseen_cons. case_bool_decide.
  - apply sublist_cons, IH.
  - apply sublist_skip, IH.
Qed.

Lemma keep_unseen_fresh (seen : list (list Cell)) (rs : list Row) (r : Row) :
  r ∈ keep_unseen seen rs -> cells r ∉ seen.
Proof.
  revert seen. induction rs as [|r0 rs IH]; intros seen Hin.
  - by apply elem_of_nil in Hin.
  - rewrite keep_unseen_cons in Hin. case_bool_decide as Hseen.
    + apply IH in Hin. rewrite not_elem_of_cons in Hin. tauto.
    + apply elem_of_cons in Hin as [->|Hin]; [done|].
      apply IH in Hin. rewrite not_elem_of_cons in Hin. tauto.
Qed.

Lemma keep_unseen_NoDup (seen : list (list Cell)) (rs : list Row) :
  NoDup (cells <$> keep_unseen seen rs).
Proof.
  revert seen. induction rs as [|r rs IH]; intros seen; [constructor|].
  rewrite keep_unseen_cons. case_bool_decide; [apply IH|].
  cbn [fmap list_fmap]. apply NoDup_cons. split; [|apply IH].
  intros Hin. apply list_elem_of_fmap in Hin as (r' & Heq & Hin).
  apply keep_unseen_fresh in Hin. apply Hin. rewrite Heq. left.
Qed.

Lemma keep_unseen_set (seen : list (list Cell)) (rs : list Row) :
  (list_to_set (cells <$> keep_unseen seen rs) : gset (list Cell))
  = list_to_set (cells <$> rs) ∖ list_to_set seen.
Proof.
  revert seen. induction rs as [|r rs IH]; intros seen.
  - cbn. set_solver.
  - rewrite keep_unseen_cons. case_bool_decide as Hseen.
    + rewrite IH. cbn [fmap list_fmap list_to_set].
      apply (elem_of_list_to_set (C:=gset _)) in Hseen. set_solver.
    + cbn [fmap list_fmap list_to_set]. rewrite IH.
      cbn [list_to_set].
      assert (cells r ∉ (list_to_set seen : gset (list Cell))) as Hn
        by (by rewrite elem_of_list_to_set).
      apply set_eq. intros k.
      destruct (decide (k = cells r)) as [->|]; set_solver.
Qed.

(** X2. On a table that has columns whenever it has rows, drop-duplicates
    keeps one row for each distinct row: no two rows of the result have the
    same cells, the result has the same set of distinct rows as the input,
    and its rows are rows of the input in their original order, under the
    same column names. *)
Theorem drop_duplicates_one_per_distinct_row (df : DataFrame) :
  (columns df = [] -> rows df = []) ->
  NoDup (cells <$> rows (drop_duplicates df))
  /\ distinct_rows (drop_duplicates df) = distinct_rows df
  /\ rows (drop_duplicates df) `sublist_of` rows df
  /\ columns (drop_duplicates df) = columns df.
Proof.
  intros Hcols. destruct (empty df) eqn:He.
  - rewrite (drop_duplicates_empty df He).
    assert (rows df = []) as Hrows.
    { unfold empty in He. destruct (columns df); [by apply Hcols|].
      by destruct (rows df). }
    rewrite Hrows. repeat split; [constructor|done].
  - rewrite (drop_duplicates_rows df He). unfold distinct_rows.
    cbn [rows columns]. split; [apply keep_unseen_NoDup|].
    split; [|split; [apply keep_unseen_sublist|done]].
    rewrite keep_unseen_set.
    change (list_to_set []) with (∅ : gset (list Cell)).
    apply difference_empty_L.
Qed.

Lemma drop_duplicates_one_per_distinct_row_witness :
  NoDup (cells <$> rows (drop_duplicates sample))
  /\ distinct_rows (drop_duplicates sample) = distinct_rows sample
  /\ rows (drop_duplicates sample) `sublist_of` rows sample
  /\ columns (drop_duplicates sample) = columns sample.
Proof.
  apply (drop_duplicates_one_per_distinct_row sample). discriminate.
Defined.

(** ** How the transformations compose *)

Lemma keep_unseen_filter (seen seen' : list (list Cell)) (rs : list Row) :
  (forall k, k ∈ seen -> k ∈ seen') ->
  (forall k, k ∈ seen' -> k ∈ seen \/ forallb notnull k = false) ->
  List.filter (fun r => forallb notnull (cells r)) (keep_unseen seen' rs)
  = keep_unseen seen
      (List.filter (fun r => forallb notnull (cells r)) rs).
Proof.
  revert seen seen'. induction rs as [|r rs IH]; intros seen seen' Hsub Hextra;
    [done|].
  rewrite keep_unseen_cons. cbn [List.filter].
  destruct (forallb notnull (cells r)) eqn:Hp.
  - rewrite keep_unseen_cons.
    assert (cells r ∈ seen' <-> cells r ∈ seen) as Hiff.
    { split; [|apply Hsub]. intros Hin.
      destruct (Hextra _ Hin) as [?|Hf]; [done|congruence]. }
    rewrite (bool_decide_ext _ _ Hiff). case_bool_decide.
    + apply IH.
      * intros k. rewrite !elem_of_cons. naive_solver.
      * intros k. rewrite !elem_of_cons. naive_solver.
    + cbn [List.filter]. rewrite Hp. f_equal. apply IH.
      * intros k. rewrite !elem_of_cons. naive_solver.
      * intros k. rewrite !elem_of_cons. naive_solver.
  - assert (List.filter (fun r => forallb notnull (cells r))
              (keep_unseen (cells r :: seen') rs)
            = keep_unseen seen
                (List.filter (fun r => forallb notnull (cells r)) rs)) as E.
    { apply IH.
      - intros k Hk. right. by apply Hsub.
      - intros k. rewrite elem_of_cons. intros [->|Hk]; [by right|].
        by apply Hextra. }
    case_bool_decide; [done|]. cbn [List.filter]. by rewrite Hp.
Qed.

(** X3. Drop-nulls and drop-duplicates commute: on every table, dropping
    the rows with a missing cell and then the repeated rows gives the same
    table as doing it the other way round. *)
Theorem dropna_drop_duplicates_commute (df : DataFrame) :
  dropna (drop_duplicates df) = drop_duplicates (dropna df).
Proof.
  destruct (empty df) eqn:He.
  - rewrite (drop_duplicates_empty df He).
    rewrite drop_duplicates_empty; [done|].
    unfold empty, dropna in *. cbn [columns rows].
    destruct (columns df); [done|]. by destruct (rows df).
  - rewrite (drop_duplicates_rows df He). unfold dropna at 1.
    cbn [columns rows].
    rewrite (keep_unseen_filter [] []) by (intros k Hk; tauto).
    destruct (empty (dropna df)) eqn:He'.
    + rewrite (drop_duplicates_empty _ He'). unfold dropna, empty in *.
      cbn [columns rows] in *. destruct (columns df); [done|].
      by destruct (List.filter _ (rows df)).
    + by rewrite (drop_duplicates_rows _ He').
Qed.

Lemma no_missing_forallb (t : DataFrame) :
  no_missing t <-> forall r, r ∈ rows t -> forallb notnull (cells r) = true.
Proof.
  unfold no_missing. split.
  - intros H r Hr. apply forallb_forall. intros c Hc.
    apply list_elem_of_In in Hc. unfold notnull. by rewrite (H r c Hr Hc).
  - intros H r c Hr Hc. specialize (H r Hr). rewrite forallb_forall in H.
    apply list_elem_of_In in Hc. specialize (H c Hc). unfold notnull in H.
    by apply negb_true_iff in H.
Qed.

Lemma dropna_no_missing (t : DataFrame) : no_missing (dropna t).
Proof. apply no_missing_forallb. intros r. apply dropna_rows_notnull. Qed.

Lemma fillna_no_missing (t : DataFrame) : no_missing (fillna placeholder t).
Proof.
  intros r c Hr Hc. unfold fillna in Hr; cbn [rows] in Hr.
  apply list_elem_of_fmap in Hr as (r0 & -> & _). cbn [cells] in Hc.
  apply list_elem_of_fmap in Hc as (c0 & -> & _). by destruct c0.
Qed.

Lemma drop_duplicates_sublist (t : DataFrame) :
  rows (drop_duplicates t) `sublist_of` rows t.
Proof.
  destruct (empty t) eqn:He.
  - by rewrite (drop_duplicates_empty t He).
  - rewrite (drop_duplicates_rows t He). apply keep_unseen_sublist.
Qed.

Lemma drop_duplicates_columns (t : DataFrame) :
  columns (drop_duplicates t) = columns t.
Proof.
  destruct (empty t) eqn:He.
  - by rewrite (drop_duplicates_empty t He).
  - by rewrite (drop_duplicates_rows t He).
Qed.

Lemma drop_duplicates_no_missing (t : DataFrame) :
  no_missing t -> no_missing (drop_duplicates t).
Proof.
  intros H r c Hr. apply (H r c).
  by apply (elem_of_sublist _ _ _ Hr (drop_duplicates_sublist t)).
Qed.

Lemma rename_if_rows (spec : str) (t : DataFrame) :
  rows (rename_if spec t) = rows t.
Proof.
  unfold rename_if. destruct (truthy spec); [|done].
  by destruct (parse_mappings spec).
Qed.

Lemma rename_if_columns_length (spec : str) (t : DataFrame) :
  length (columns (rename_if spec t)) = length (columns t).
Proof.
  unfold rename_if. destruct (truthy spec); [|done].
  destruct (parse_mappings spec); [done|].
  unfold rename. cbn [columns]. apply length_fmap.
Qed.

Lemma filter_all_rows (f : Row -> bool) (rs : list Row) :
  (forall r, r ∈ rs -> f r = true) -> List.filter f rs = rs.
Proof. apply filter_all. Qed.

Lemma dropna_id (t : DataFrame) : no_missing t -> dropna t = t.
Proof.
  intros H. unfold dropna. rewrite filter_all_rows; [by destruct t|].
  by apply no_missing_forallb.
Qed.

Lemma fillna_id (v : Cell) (t : DataFrame) : no_missing t -> fillna v t = t.
Proof.
  intros H. unfold fillna. rewrite fill_rows_notnull; [by destruct t|].
  by apply no_missing_forallb.
Qed.

Lemma cleans_to_pipeline (st_dataframe : DataFrame -> result unit)
    (to_csv : DataFrame -> str)
    (render_pdf : Report -> result (list Byte.byte))
    (sel : Selection) (s : Session) (t cleaned : DataFrame) :
  cleans_to st_dataframe to_csv render_pdf sel s t cleaned ->
  cleaned = pipeline sel t.
Proof.
  intros (Ht & c & Hc & Hcleaned).
  destruct (apply_cleaning_session st_dataframe to_csv render_pdf sel s t Ht)
    as (c' & s1 & events & _ & Hc' & _ & E).
  rewrite E in Hc, Hcleaned. cbn in Hc, Hcleaned.
  injection Hc as <-. congruence.
Qed.

Lemma pipeline_cleans_to (st_dataframe : DataFrame -> result unit)
    (to_csv : DataFrame -> str)
    (render_pdf : Report -> result (list Byte.byte))
    (sel : Selection) (s : Session) (t : DataFrame) :
  heap s !! df s = Some t ->
  cleans_to st_dataframe to_csv render_pdf sel s t (pipeline sel t).
Proof.
  intros Ht. split; [done|].
  destruct (apply_cleaning_session st_dataframe to_csv render_pdf sel s t Ht)
    as (c & s1 & events & _ & Hc & _ & E).
  exists c. rewrite E. by split.
Qed.

Lemma list_filter_sublist {A} (f : A -> bool) (l : list A) :
  List.filter f l `sublist_of` l.
Proof.
  induction l as [|x l IH]; [done|]. cbn [List.filter].
  destruct (f x); [by apply sublist_skip|by apply sublist_cons].
Qed.

Lemma apply_if_dropna_sublist (flag : bool) (t : DataFrame) :
  rows (apply_if flag dropna t) `sublist_of` rows t
  /\ columns (apply_if flag dropna t) = columns t.
Proof.
  destruct flag; [|done]. split; [|done]. apply list_filter_sublist.
Qed.

Lemma apply_if_drop_duplicates_sublist (flag : bool) (t : DataFrame) :
  rows (apply_if flag drop_duplicates t) `sublist_of` rows t
  /\ columns (apply_if flag drop_duplicates t) = columns t.
Proof.
  destruct flag; [|done].
  split; [apply drop_duplicates_sublist|apply drop_duplicates_columns].
Qed.

Lemma fillna_labels (v : Cell) (t : DataFrame) :
  label <$> rows (fillna v t) = label <$> rows t.
Proof.
  unfold fillna. cbn [rows]. rewrite <- list_fmap_compose.
  by apply list_fmap_ext.
Qed.

Lemma pipeline_labels (sel : Selection) (t : DataFrame) :
  label <$> rows (pipeline sel t) `sublist_of` label <$> rows t.
Proof.
  unfold pipeline. rewrite rename_if_rows.
  etransitivity.
  { apply fmap_sublist, apply_if_drop_duplicates_sublist. }
  etransitivity; [|apply fmap_sublist, (apply_if_dropna_sublist
                                           (drop_nulls sel) t)].
  destruct (fill_nulls sel); [|done]. cbn [apply_if].
  by rewrite fillna_labels.
Qed.

Lemma pipeline_rows_without_fill (sel : Selection) (t : DataFrame) :
  fill_nulls sel = false -> rows (pipeline sel t) `sublist_of` rows t.
Proof.
  intros Hfill. unfold pipeline. rewrite rename_if_rows, Hfill.
  cbn [apply_if]. etransitivity.
  - apply apply_if_drop_duplicates_sublist.
  - apply apply_if_dropna_sublist.
Qed.

Lemma pipeline_columns_length (sel : Selection) (t : DataFrame) :
  length (columns (pipeline sel t)) = length (columns t).
Proof.
  unfold pipeline. rewrite rename_if_columns_length.
  rewrite (proj2 (apply_if_drop_duplicates_sublist _ _)).
  destruct (fill_nulls sel); cbn [apply_if fillna columns];
    by rewrite (proj2 (apply_if_dropna_sublist _ _)).
Qed.

Lemma pipeline_rows_length (sel : Selection) (t : DataFrame) :
  length (rows (pipeline sel t)) <= length (rows t).
Proof.
  rewrite <- (length_fmap label (rows (pipeline sel t))).
  rewrite <- (length_fmap label (rows t)).
  apply sublist_length, pipeline_labels.
Qed.

(** X4. The two shapes of the report behind the report button: the
    original shape is that of the loaded table and the cleaned shape that
    of the cleaned table; whatever is selected, cleaning never changes the
    number of columns and never adds a row. *)
Theorem report_shapes (st_dataframe : DataFrame -> result unit)
    (to_csv : DataFrame -> str)
    (render_pdf : Report -> result (list Byte.byte))
    (sel : Selection) (s : Session) (t : DataFrame) (r : Report) :
  heap s !! df s = Some t ->
  (apply_cleaning st_dataframe to_csv render_pdf sel s).1 = inr (Some r) ->
  original_shape r = shape t
  /\ (forall cleaned,
        cleans_to st_dataframe to_csv render_pdf sel s t cleaned ->
        cleaned_shape r = shape cleaned)
  /\ (cleaned_shape r).2 = (original_shape r).2
  /\ (cleaned_shape r).1 <= (original_shape r).1.
Proof.
  intros Ht Hr.
  destruct (apply_cleaning_report _ _ _ _ _ _ _ Ht Hr) as [-> _].
  cbn [original_shape cleaned_shape]. split; [|split; [|split]].
  - done.
  - intros cleaned Hcl. by rewrite (cleans_to_pipeline _ _ _ _ _ _ _ Hcl).
  - cbn. apply pipeline_columns_length.
  - cbn. apply pipeline_rows_length.
Qed.

Lemma report_shapes_witness :
  let r := mkReport (5, 2) (3, 2) [(lit "name", 0); (lit "age", 1)] 1
             [DroppedNulls; RemovedDuplicates;
              RenamedColumns (lit "name:who")] None in
  original_shape r = shape sample
  /\ (forall cleaned,
        cleans_to st_shown header_lines core_font_pdf
          (mkSelection true false true (lit "name:who")) loaded sample
          cleaned ->
        cleaned_shape r = shape cleaned)
  /\ (cleaned_shape r).2 = (original_shape r).2
  /\ (cleaned_shape r).1 <= (original_shape r).1.
Proof.
  apply (report_shapes st_shown header_lines core_font_pdf
           (mkSelection true false true (lit "name:who")) loaded sample).
  - reflexivity.
  - vm_compute. reflexivity.
Defined.

(** X5. Cleaning keeps the surviving rows in their original order: the
    row labels of the cleaned table are a subsequence of those of the
    loaded table, and when fill-nulls is off the cleaned rows themselves
    (label and cells) are a subsequence of the loaded rows. *)
Theorem cleaning_keeps_row_order (st_dataframe : DataFrame -> result unit)
    (to_csv : DataFrame -> str)
    (render_pdf : Report -> result (list Byte.byte))
    (sel : Selection) (s : Session) (t cleaned : DataFrame) :
  cleans_to st_dataframe to_csv render_pdf sel s t cleaned ->
  label <$> rows cleaned `sublist_of` label <$> rows t
  /\ (fill_nulls sel = false -> rows cleaned `sublist_of` rows t).
Proof.
  intros ->%cleans_to_pipeline. split.
  - apply pipeline_labels.
  - apply pipeline_rows_without_fill.
Qed.

Lemma cleaning_keeps_row_order_witness :
  cleans_to st_shown header_lines core_font_pdf
    (mkSelection true false true []) loaded sample
    (pipeline (mkSelection true false true []) sample)
  /\ label <$> rows (pipeline (mkSelection true false true []) sample)
     `sublist_of` label <$> rows sample
  /\ (fill_nulls (mkSelection true false true []) = false ->
      rows (pipeline (mkSelection true false true []) sample)
      `sublist_of` rows sample).
Proof.
  assert (cleans_to st_shown header_lines core_font_pdf
            (mkSelection true false true []) loaded sample
            (pipeline (mkSelection true false true []) sample)) as H.
  { split; [reflexivity|]. eexists. split; vm_compute; reflexivity. }
  split; [exact H|].
  exact (cleaning_keeps_row_order _ _ _ _ _ _ _ H).
Defined.

Lemma pipeline_no_missing (sel : Selection) (t : DataFrame) :
  drop_nulls sel = true \/ fill_nulls sel = true ->
  no_missing (pipeline sel t).
Proof.
  intros Hsel. unfold pipeline.
  assert (no_missing (apply_if (fill_nulls sel) (fillna placeholder)
                        (apply_if (drop_nulls sel) dropna t))) as H.
  { destruct (fill_nulls sel) eqn:Hf; cbn [apply_if].
    - apply fillna_no_missing.
    - destruct Hsel as [->|?]; [|done]. apply dropna_no_missing. }
  assert (no_missing (apply_if (drop_dupes sel) drop_duplicates
                        (apply_if (fill_nulls sel) (fillna placeholder)
                           (apply_if (drop_nulls sel) dropna t)))) as H'.
  { destruct (drop_dupes sel); [|done]. by apply drop_duplicates_no_missing. }
  intros r c. rewrite rename_if_rows. apply H'.
Qed.

(** X6. When drop-nulls or fill-nulls is selected (either one is enough),
    the cleaned table holds no missing-marker cell, also after
    drop-duplicates and rename have run. *)
Theorem cleaning_leaves_no_missing (st_dataframe : DataFrame -> result unit)
    (to_csv : DataFrame -> str)
    (render_pdf : Report -> result (list Byte.byte))
    (sel : Selection) (s : Session) (t cleaned : DataFrame) :
  cleans_to st_dataframe to_csv render_pdf sel s t cleaned ->
  drop_nulls sel = true \/ fill_nulls sel = true ->
  no_missing cleaned.
Proof.
  intros ->%cleans_to_pipeline. apply pipeline_no_missing.
Qed.

Lemma cleaning_leaves_no_missing_witness :
  cleans_to st_shown header_lines core_font_pdf
    (mkSelection false true true (lit "name:who")) loaded sample
    (pipeline (mkSelection false true true (lit "name:who")) sample)
  /\ no_missing (pipeline (mkSelection false true true (lit "name:who"))
                          sample).
Proof.
  assert (cleans_to st_shown header_lines core_font_pdf
            (mkSelection false true true (lit "name:who")) loaded sample
            (pipeline (mkSelection false true true (lit "name:who")) sample))
    as H.
  { split; [reflexivity|]. eexists. split; vm_compute; reflexivity. }
  split; [exact H|].
  apply (cleaning_leaves_no_missing _ _ _ _ _ _ _ H). by right.
Defined.

Lemma drop_duplicates_idempotent_rows (t : DataFrame) :
  drop_duplicates (drop_duplicates t) = drop_duplicates t.
Proof.
  destruct (empty t) eqn:He.
  - by rewrite !(drop_duplicates_empty t He).
  - rewrite (drop_duplicates_rows t He).
    destruct (empty (mkDF (columns t) (keep_unseen [] (rows t)))) eqn:He'.
    + by rewrite (drop_duplicates_empty _ He').
    + rewrite (drop_duplicates_rows _ He'). cbn [columns rows].
      by rewrite keep_unseen_idem.
Qed.

Lemma pipeline_fixed (sel : Selection) (t : DataFrame) :
  rename_columns sel = [] -> pipeline sel (pipeline sel t) = pipeline sel t.
Proof.
  intros Hspec. unfold pipeline. rewrite Hspec. cbn [rename_if truthy].
  set (x := apply_if (drop_nulls sel) dropna t).
  set (y := apply_if (fill_nulls sel) (fillna placeholder) x).
  set (u := apply_if (drop_dupes sel) drop_duplicates y).
  assert (drop_nulls sel = true \/ fill_nulls sel = true -> no_missing u)
    as Hu.
  { intros Hsel. subst u. assert (no_missing y) as Hy.
    { subst y x. destruct (fill_nulls sel); cbn [apply_if].
      - apply fillna_no_missing.
      - destruct Hsel as [->|?]; [|done]. apply dropna_no_missing. }
    destruct (drop_dupes sel); [|done]. by apply drop_duplicates_no_missing. }
  assert (apply_if (drop_nulls sel) dropna u = u) as ->.
  { destruct (drop_nulls sel); [|done]. apply dropna_id, Hu. by left. }
  assert (apply_if (fill_nulls sel) (fillna placeholder) u = u) as ->.
  { destruct (fill_nulls sel); [|done]. apply fillna_id, Hu. by right. }
  subst u. destruct (drop_dupes sel); [|done]. cbn [apply_if].
  apply drop_duplicates_idempotent_rows.
Qed.

(** X7. Without a rename, cleaning a cleaned table again with the same
    selection changes nothing: if the handler turns [t] into [u] and, run
    on a session that holds [u], turns [u] into [v], then [v] is [u]. *)
Theorem cleaning_again_changes_nothing (st_dataframe : DataFrame -> result unit)
    (to_csv : DataFrame -> str)
    (render_pdf : Report -> result (list Byte.byte))
    (sel : Selection) (s s' : Session) (t u v : DataFrame) :
  rename_columns sel = [] ->
  cleans_to st_dataframe to_csv render_pdf sel s t u ->
  cleans_to st_dataframe to_csv render_pdf sel s' u v ->
  v = u.
Proof.
  intros Hspec ->%cleans_to_pipeline ->%cleans_to_pipeline.
  by apply pipeline_fixed.
Qed.

Lemma cleaning_again_changes_nothing_witness :
  pipeline (mkSelection true true true [])
    (pipeline (mkSelection true true true []) sample)
  = pipeline (mkSelection true true true []) sample.
Proof.
  apply (cleaning_again_changes_nothing st_shown header_lines core_font_pdf
           (mkSelection true true true []) loaded
           (single (pipeline (mkSelection true true true []) sample))
           sample).
  - reflexivity.
  - split; [reflexivity|]. eexists. split; vm_compute; reflexivity.
  - split; [reflexivity|]. eexists. split; vm_compute; reflexivity.
Defined.

(** ** What the handler writes *)

(** The handler up to the rename: three guarded calls that write nothing. *)
Lemma clean_before_rename (sel : Selection) (s : Session) (t : DataFrame) :
  heap s !! df s = Some t ->
  exists c3 s3,
    clean sel s = rename_stage (rename_columns sel) c3 s3
    /\ ui s3 = ui s
    /\ heap s3 !! c3
       = Some (apply_if (drop_dupes sel) drop_duplicates
                 (apply_if (fill_nulls sel) (fillna placeholder)
                    (apply_if (drop_nulls sel) dropna t))).
Proof.
  intros Ht. unfold clean.
  rewrite (bind_run (get df) _ s s (df s)) by done.
  destruct (call_run copy (df s) s t Ht) as (c0 & s0 & E0 & L0 & _ & U0 & _).
  rewrite (bind_run _ _ _ _ _ E0). unfold copy in L0.
  destruct (guarded_call_run (drop_nulls sel) dropna c0 s0 _ L0)
    as (c1 & s1 & E1 & L1 & _ & U1 & _).
  rewrite (bind_run _ _ _ _ _ E1).
  destruct (guarded_call_run (fill_nulls sel) (fillna placeholder) c1 s1 _ L1)
    as (c2 & s2 & E2 & L2 & _ & U2 & _).
  rewrite (bind_run _ _ _ _ _ E2).
  destruct (guarded_call_run (drop_dupes sel) drop_duplicates c2 s2 _ L2)
    as (c3 & s3 & E3 & L3 & _ & U3 & _).
  rewrite (bind_run _ _ _ _ _ E3).
  exists c3, s3. split; [done|]. split; [congruence|done].
Qed.

Lemma pipeline_columns_rename_skipped (sel : Selection) (t : DataFrame) :
  parse_mappings (rename_columns sel) = inl IndexError ->
  columns (pipeline sel t) = columns t.
Proof.
  intros Hparse. unfold pipeline, rename_if. rewrite Hparse.
  assert (forall x, columns (if truthy (rename_columns sel) then x else x)
                    = columns x) as -> by (intros x; by destruct (truthy _)).
  rewrite (proj2 (apply_if_drop_duplicates_sublist _ _)).
  destruct (fill_nulls sel); cbn [apply_if fillna columns];
    by rewrite (proj2 (apply_if_dropna_sublist _ _)).
Qed.

(** X8. A rename text with a pair that has no colon does not stop the
    handler: the cleaned table has the column names of the loaded table,
    and the page gets the warning and then the success message, whatever
    follows.  When the report button is there, the page has the warning,
    the success message, the preview of the first 20 rows and both
    downloads, in this order, and the report lists the rename among the
    actions taken although no column was renamed. *)
Theorem skipped_rename_is_reported_as_done (st_dataframe : DataFrame -> result unit)
    (to_csv : DataFrame -> str)
    (render_pdf : Report -> result (list Byte.byte))
    (sel : Selection) (s : Session) (t cleaned : DataFrame) :
  cleans_to st_dataframe to_csv render_pdf sel s t cleaned ->
  rename_columns sel <> [] ->
  (exists item, item ∈ split comma (rename_columns sel) /\ colon ∉ item) ->
  columns cleaned = columns t
  /\ (exists events,
        ui (exec (apply_cleaning st_dataframe to_csv render_pdf sel) s)
        = ui s ++ [StWarning IndexError; StSuccess] ++ events)
  /\ (forall r,
        (apply_cleaning st_dataframe to_csv render_pdf sel s).1
        = inr (Some r) ->
        RenamedColumns (rename_columns sel) ∈ actions_taken r
        /\ exists csv data,
             csv_download to_csv cleaned = Some csv
             /\ ui (exec (apply_cleaning st_dataframe to_csv render_pdf sel)
                         s)
                = ui s ++ [StWarning IndexError; StSuccess;
                           StDataframe (head 20 cleaned); DownloadCsv csv;
                           DownloadReport r data]).
Proof.
  intros Hcl Hne Hbad.
  pose proof (cleans_to_pipeline _ _ _ _ _ _ _ Hcl) as ->.
  destruct Hcl as [Ht _].
  pose proof (parse_mappings_raises _ Hbad) as Hparse.
  destruct (clean_before_rename sel s t Ht) as (c3 & s3 & Er & Hui & _).
  assert (forall c s1, clean sel s = (c, s1) ->
                       ui s1 = ui s ++ [StWarning IndexError]) as Hui1.
  { intros c s1 Ec. rewrite Er in Ec. unfold rename_stage in Ec.
    rewrite (truthy_nonempty _ Hne), Hparse in Ec.
    injection Ec as _ <-. cbn. by rewrite Hui. }
  split; [by apply pipeline_columns_rename_skipped|]. split.
  - destruct (apply_cleaning_session st_dataframe to_csv render_pdf sel s t
                Ht) as (c & s1 & events & Ec & _ & _ & E).
    exists events. rewrite E. cbn [ui]. rewrite (Hui1 _ _ Ec).
    by rewrite <- app_assoc.
  - intros r Hr.
    destruct (apply_cleaning_report _ _ _ _ _ _ _ Ht Hr)
      as (-> & c & s1 & csv & data & Ec & _ & Hcsv & _ & E).
    split.
    + cbn [actions_taken]. unfold actions_of.
      rewrite (truthy_nonempty _ Hne). rewrite !elem_of_app. do 3 right.
      left.
    + exists csv, data. split; [done|]. rewrite E, (Hui1 _ _ Ec).
      by rewrite <- app_assoc.
Qed.

Lemma skipped_rename_is_reported_as_done_witness :
  columns one_column = columns one_column
  /\ (exists events,
        ui (exec (apply_cleaning st_shown header_lines core_font_pdf
                    (mkSelection false false false (lit "a-b")))
                 (single one_column))
        = ui (single one_column) ++ [StWarning IndexError; StSuccess]
          ++ events)
  /\ (forall r,
        (apply_cleaning st_shown header_lines core_font_pdf
           (mkSelection false false false (lit "a-b")) (single one_column)).1
        = inr (Some r) ->
        RenamedColumns
          (rename_columns (mkSelection false false false (lit "a-b")))
        ∈ actions_taken r
        /\ exists csv data,
             csv_download header_lines one_column = Some csv
             /\ ui (exec (apply_cleaning st_shown header_lines core_font_pdf
                           (mkSelection false false false (lit "a-b")))
                        (single one_column))
                = ui (single one_column)
                  ++ [StWarning IndexError; StSuccess;
                      StDataframe (head 20 one_column); DownloadCsv csv;
                      DownloadReport r data]).
Proof.
  apply (skipped_rename_is_reported_as_done st_shown header_lines
           core_font_pdf (mkSelection false false false (lit "a-b"))
           (single one_column) one_column one_column).
  - split; [reflexivity|]. eexists. split; vm_compute; reflexivity.
  - discriminate.
  - exists (lit "a-b"). split.
    + by apply (bool_decide_unpack _); vm_compute.
    + by apply (bool_decide_unpack _); vm_compute.
Defined.

(** The run of the witness above, in full: the report button is there and
    its report says that the columns were renamed. *)
Example skipped_rename_page :
  apply_cleaning st_shown header_lines core_font_pdf
    (mkSelection false false false (lit "a-b")) (single one_column)
  = (inr (Some (mkReport (0, 1) (0, 1) [] 0 [RenamedColumns (lit "a-b")]
                  None)),
     mkSession {[ 0 := one_column; 1 := one_column ]} 0 [] 0 [] (Some 1)
       [StWarning IndexError; StSuccess; StDataframe one_column;
        DownloadCsv [Byte.x61; Byte.x0a];
        DownloadReport
          (mkReport (0, 1) (0, 1) [] 0 [RenamedColumns (lit "a-b")] None)
          [Byte.x25; Byte.x50; Byte.x44; Byte.x46]]).
Proof. by vm_compute. Qed.

(** A rename text that has no colon and is outside ISO-8859-1: the
    warning, the preview and the CSV download are on the page, the report
    button is not. *)
Example skipped_rename_without_report :
  let run := apply_cleaning st_shown header_lines core_font_pdf
               (mkSelection false false false [937%N]) (single one_column) in
  run.1 = inr None
  /\ ui run.2
     = [StWarning IndexError; StSuccess; StDataframe one_column;
        DownloadCsv [Byte.x61; Byte.x0a]; StError UnicodeEncodeError].
Proof. by vm_compute. Qed.

(** ** One run of the script *)

Lemma singleton_session_lookup (t : DataFrame) (nc : list (str * nat))
    (dc : nat) (gpt : str) :
  heap (mkSession {[ 0 := t ]} 0 nc dc gpt None [])
    !! df (mkSession {[ 0 := t ]} 0 nc dc gpt None []) = Some t.
Proof. cbn [heap df]. apply lookup_singleton_eq. Qed.

(** A run on a file that loads, is shown and profiles. *)
Lemma script_ran (parse_csv : str -> result DataFrame)
    (read_excel : UploadedFile -> result DataFrame * UploadedFile)
    (st_dataframe : DataFrame -> result unit)
    (build_prompt : DataFrame -> str) (chat_complete : str -> result str)
    (to_csv : DataFrame -> str)
    (render_pdf : Report -> result (list Byte.byte))
    (w : Widgets) (name : str) (f : UploadedFile) (t : DataFrame)
    (p : Profile) :
  uploaded_file w = Some (name, f) ->
  (load parse_csv read_excel name f).1 = inr t ->
  st_dataframe (head 20 t) = inr tt ->
  profile t = inr p ->
  script parse_csv read_excel st_dataframe build_prompt chat_complete
    to_csv render_pdf w
  = let gpt := (suggest build_prompt chat_complete (suggest_clicked w) t).1 in
    let ai_error :=
      (suggest build_prompt chat_complete (suggest_clicked w) t).2 in
    let s := mkSession {[ 0 := t ]} 0 (null_counts p) (duplicate_count p) gpt
                       None [] in
    if apply_clicked w then
      match apply_cleaning st_dataframe to_csv render_pdf (selection w) s with
      | (inr report, s') => Ran s' (empty_cols p) ai_error report
      | (inl e, _) => ErrorLoading e
      end
    else Ran s (empty_cols p) ai_error None.
Proof.
  intros Hw Hload Hshow Hp. unfold script, load_and_profile.
  rewrite Hw, Hload. cbn [mbind result_bind]. rewrite Hshow.
  cbn [mbind result_bind]. rewrite Hp. cbn [mbind result_bind mret result_ret].
  by destruct (suggest _ _ _ t) as [gpt ae].
Qed.

(** What a run that built the page started from. *)
Lemma script_ran_inv (parse_csv : str -> result DataFrame)
    (read_excel : UploadedFile -> result DataFrame * UploadedFile)
    (st_dataframe : DataFrame -> result unit)
    (build_prompt : DataFrame -> str) (chat_complete : str -> result str)
    (to_csv : DataFrame -> str)
    (render_pdf : Report -> result (list Byte.byte))
    (w : Widgets) (s : Session) (ec : list str) (ae : option exn)
    (report : option Report) :
  script parse_csv read_excel st_dataframe build_prompt chat_complete
    to_csv render_pdf w
  = Ran s ec ae report ->
  exists name f t p,
    uploaded_file w = Some (name, f)
    /\ (load parse_csv read_excel name f).1 = inr t
    /\ st_dataframe (head 20 t) = inr tt
    /\ profile t = inr p.
Proof.
  unfold script, load_and_profile.
  destruct (uploaded_file w) as [[name f]|]; [|done].
  destruct (load _ _ name f).1 as [e|t] eqn:Hload; [done|].
  cbn [mbind result_bind].
  destruct (st_dataframe (head 20 t)) as [e|[]] eqn:Hshow; [done|].
  cbn [mbind result_bind]. destruct (profile t) as [e|p] eqn:Hp; [done|].
  intros _. by exists name, f, t, p.
Qed.

(** The report of a run, if the report button is there, is the report of
    the handler run on the session that the load leaves. *)
Lemma script_report (parse_csv : str -> result DataFrame)
    (read_excel : UploadedFile -> result DataFrame * UploadedFile)
    (st_dataframe : DataFrame -> result unit)
    (build_prompt : DataFrame -> str) (chat_complete : str -> result str)
    (to_csv : DataFrame -> str)
    (render_pdf : Report -> result (list Byte.byte))
    (w : Widgets) (r : Report) :
  report_of (script parse_csv read_excel st_dataframe build_prompt chat_complete
    to_csv render_pdf w)
  = Some r ->
  exists name f t p,
    uploaded_file w = Some (name, f)
    /\ (load parse_csv read_excel name f).1 = inr t
    /\ profile t = inr p
    /\ apply_clicked w = true
    /\ ai_error_of (script parse_csv read_excel st_dataframe build_prompt chat_complete
    to_csv render_pdf w)
       = (suggest build_prompt chat_complete (suggest_clicked w) t).2
    /\ r = mkReport (shape t) (shape (pipeline (selection w) t))
             (null_counts p) (duplicate_count p) (actions_of (selection w))
             (let gpt :=
                (suggest build_prompt chat_complete (suggest_clicked w) t).1
              in if truthy gpt then Some gpt else None).
Proof.
  intros Hr.
  destruct (script parse_csv read_excel st_dataframe build_prompt chat_complete
    to_csv render_pdf w)
    as [| |s ec ae report] eqn:Hrun; try discriminate Hr.
  cbn [report_of] in Hr. subst report. cbn [ai_error_of].
  destruct (script_ran_inv _ _ _ _ _ _ _ _ _ _ _ _ Hrun)
    as (name & f & t & p & Hw & Hload & Hshow & Hp).
  exists name, f, t, p.
  rewrite (script_ran _ _ _ _ _ _ _ _ _ _ _ _ Hw Hload Hshow Hp) in Hrun.
  cbv zeta in Hrun. destruct (apply_clicked w); [|discriminate Hrun].
  destruct (apply_cleaning _ _ _ _ _) as [[e|report] s'] eqn:Happ;
    [discriminate Hrun|].
  injection Hrun as _ _ Hae Hrep. subst report.
  destruct (apply_cleaning_report st_dataframe to_csv render_pdf
              (selection w) _ t r
              (singleton_session_lookup t (null_counts p) (duplicate_count p)
                 (suggest build_prompt chat_complete (suggest_clicked w) t).1))
    as [Er _]; [by rewrite Happ|].
  by cbn [g_null_counts g_duplicate_count gpt_suggestions] in Er.
Qed.

Example script_people :
  script simple_csv no_excel st_shown no_prompt chat_tips header_lines
    core_font_pdf (people_run false true only_dedup)
  = Ran (apply_cleaning st_shown header_lines core_font_pdf only_dedup
           (mkSession {[ 0 := people ]} 0 [(lit "name", 0); (lit "age", 1)] 1
                      [] None [])).2
        [] None
        (Some (mkReport (3, 2) (2, 2) [(lit "name", 0); (lit "age", 1)] 1
                 [RemovedDuplicates] None)).
Proof. by vm_compute. Qed.

(** X9. The report carries the AI suggestions only when the suggestion
    button was clicked for the very run that builds the report: the holder
    is emptied at the top of every run, so in a run without that click, or
    in which the request failed, the report has no suggestions, and a
    suggestion text found in a report is never empty. *)
Theorem report_suggestions_need_click (parse_csv : str -> result DataFrame)
    (read_excel : UploadedFile -> result DataFrame * UploadedFile)
    (st_dataframe : DataFrame -> result unit)
    (build_prompt : DataFrame -> str) (chat_complete : str -> result str)
    (to_csv : DataFrame -> str)
    (render_pdf : Report -> result (list Byte.byte))
    (w : Widgets) (r : Report) :
  report_of (script parse_csv read_excel st_dataframe build_prompt chat_complete
    to_csv render_pdf w)
  = Some r ->
  (suggest_clicked w = false -> suggestions r = None)
  /\ (ai_error_of (script parse_csv read_excel st_dataframe build_prompt chat_complete
    to_csv render_pdf w)
      <> None -> suggestions r = None)
  /\ (forall text, suggestions r = Some text ->
                   suggest_clicked w = true /\ text <> []).
Proof.
  intros Hr.
  destruct (script_report _ _ _ _ _ _ _ _ _ Hr)
    as (name & f & t & p & _ & _ & _ & _ & -> & ->).
  cbn [suggestions]. cbv zeta. unfold suggest.
  destruct (suggest_clicked w).
  - destruct (chat_complete (build_prompt t)) as [e|text]; cbn [fst snd].
    + by repeat split.
    + split; [done|]. split; [done|].
      intros text'. destruct text; [done|]. cbn [truthy].
      intros [= <-]. by split.
  - cbn [fst snd truthy]. by repeat split.
Qed.

Lemma report_suggestions_need_click_witness :
  (suggest_clicked (people_run false true only_dedup) = false ->
   suggestions (mkReport (3, 2) (2, 2) [(lit "name", 0); (lit "age", 1)] 1
                  [RemovedDuplicates] None) = None)
  /\ (ai_error_of (script simple_csv no_excel st_shown no_prompt chat_tips
                     header_lines core_font_pdf
                     (people_run false true only_dedup)) <> None ->
      suggestions (mkReport (3, 2) (2, 2) [(lit "name", 0); (lit "age", 1)] 1
                     [RemovedDuplicates] None) = None)
  /\ (forall text,
        suggestions (mkReport (3, 2) (2, 2) [(lit "name", 0); (lit "age", 1)]
                       1 [RemovedDuplicates] None) = Some text ->
        suggest_clicked (people_run false true only_dedup) = true
        /\ text <> []).
Proof.
  apply (report_suggestions_need_click simple_csv no_excel st_shown no_prompt
           chat_tips header_lines core_font_pdf
           (people_run false true only_dedup)).
  by vm_compute.
Defined.

(** A run in which both buttons count as clicked: the answer is in the
    report. *)
Example report_with_suggestions :
  report_of (script simple_csv no_excel st_shown no_prompt chat_tips
               header_lines core_font_pdf (people_run true true only_dedup))
  = Some (mkReport (3, 2) (2, 2) [(lit "name", 0); (lit "age", 1)] 1
            [RemovedDuplicates] (Some (lit "tips"))).
Proof. by vm_compute. Qed.

(** X10. A failure of the suggestion request does not stop the run: the
    error is kept for the page, and when the cleaning was asked for in the
    same run it is done as usual.  When the preview of the cleaned table
    and the encoding of the CSV text return, the run ends with the page
    built, the cleaned table in [cleaned_df] and its CSV download on the
    page; the report, when its button is there, has no suggestions, and
    when the PDF calls raise the page has their error message next to the
    CSV download. *)
Theorem suggestion_failure_leaves_cleaning_usable (parse_csv : str -> result DataFrame)
    (read_excel : UploadedFile -> result DataFrame * UploadedFile)
    (st_dataframe : DataFrame -> result unit)
    (build_prompt : DataFrame -> str) (chat_complete : str -> result str)
    (to_csv : DataFrame -> str)
    (render_pdf : Report -> result (list Byte.byte))
    (w : Widgets) (name : str) (f : UploadedFile) (t : DataFrame)
    (p : Profile) (e : exn) (csv : list Byte.byte) :
  uploaded_file w = Some (name, f) ->
  (load parse_csv read_excel name f).1 = inr t ->
  st_dataframe (head 20 t) = inr tt ->
  profile t = inr p ->
  suggest_clicked w = true ->
  chat_complete (build_prompt t) = inl e ->
  apply_clicked w = true ->
  st_dataframe (head 20 (pipeline (selection w) t)) = inr tt ->
  csv_download to_csv (pipeline (selection w) t) = Some csv ->
  exists s report c,
    script parse_csv read_excel st_dataframe build_prompt chat_complete
    to_csv render_pdf w
    = Ran s (empty_cols p) (Some e) report
    /\ cleaned_df s = Some c
    /\ heap s !! c = Some (pipeline (selection w) t)
    /\ DownloadCsv csv ∈ ui s
    /\ match report with
       | Some r =>
           suggestions r = None
           /\ exists data, render_pdf r = inr data
                           /\ DownloadReport r data ∈ ui s
       | None =>
           exists e' r, render_pdf r = inl e' /\ StError e' ∈ ui s
       end.
Proof.
  intros Hw Hload Hshow Hp Hclick Hchat Happly Hshow' Hcsv.
  rewrite (script_ran _ _ _ _ _ _ _ _ _ _ _ _ Hw Hload Hshow Hp). cbv zeta.
  unfold suggest. rewrite Hclick, Hchat, Happly. cbn [fst snd].
  destruct (apply_cleaning_run st_dataframe to_csv render_pdf (selection w)
              _ t
              (singleton_session_lookup t (null_counts p) (duplicate_count p)
                 []))
    as (c & s1 & _ & Hc & _ & E).
  cbv zeta in E. rewrite E, Hshow', Hcsv.
  cbn [gpt_suggestions truthy].
  destruct (render_pdf _) as [e'|data] eqn:Hpdf.
  - eexists _, None, c. split; [reflexivity|]. session_fields.
    split; [done|]. split; [done|]. split.
    + rewrite !elem_of_app, !elem_of_cons. tauto.
    + eexists e', _. split; [exact Hpdf|].
      rewrite !elem_of_app, !elem_of_cons. tauto.
  - eexists _, (Some _), c. split; [reflexivity|]. session_fields.
    split; [done|]. split; [done|]. split.
    + rewrite !elem_of_app, !elem_of_cons. tauto.
    + cbn [suggestions]. split; [done|]. exists data. split; [exact Hpdf|].
      rewrite !elem_of_app, !elem_of_cons. tauto.
Qed.

Lemma suggestion_failure_leaves_cleaning_usable_witness :
  exists s report c,
    script simple_csv no_excel st_shown no_prompt chat_down header_lines
      core_font_pdf (people_run true true only_dedup)
    = Ran s (empty_cols (mkProfile [(lit "name", 0); (lit "age", 1)] 1 1 []))
          (Some ValueError) report
    /\ cleaned_df s = Some c
    /\ heap s !! c = Some (pipeline (selection
                                      (people_run true true only_dedup))
                                   people)
    /\ DownloadCsv
         (byte_of <$> [110; 97; 109; 101; 10; 97; 103; 101; 10]%N) ∈ ui s
    /\ match report with
       | Some r =>
           suggestions r = None
           /\ exists data, core_font_pdf r = inr data
                           /\ DownloadReport r data ∈ ui s
       | None =>
           exists e' r, core_font_pdf r = inl e' /\ StError e' ∈ ui s
       end.
Proof.
  apply (suggestion_failure_leaves_cleaning_usable simple_csv no_excel
           st_shown no_prompt chat_down header_lines core_font_pdf
           (people_run true true only_dedup)
           (lit "people.csv") (upload people_csv) people
           (mkProfile [(lit "name", 0); (lit "age", 1)] 1 1 []) ValueError);
    by vm_compute.
Defined.

(** Rows flagged among the rows that pass a filter are at most the rows
    flagged in the whole list. *)
Lemma duplicated_from_filter_le (f : Row -> bool)
    (seen seen' : list (list Cell)) (rs : list Row) :
  (forall k, k ∈ seen -> k ∈ seen') ->
  mask_sum (duplicated_from seen (List.filter f rs))
  <= mask_sum (duplicated_from seen' rs).
Proof.
  revert seen seen'. induction rs as [|r rs IH]; intros seen seen' Hsub;
    [done|].
  cbn [List.filter duplicated_from]. rewrite mask_sum_cons.
  destruct (f r).
  - cbn [duplicated_from]. rewrite mask_sum_cons.
    specialize (IH (cells r :: seen) (cells r :: seen')).
    assert (mask_sum (duplicated_from (cells r :: seen) (List.filter f rs))
            <= mask_sum (duplicated_from (cells r :: seen') rs)) as Hle.
    { apply IH. intros k. rewrite !elem_of_cons. naive_solver. }
    repeat case_bool_decide; try lia. exfalso. auto.
  - specialize (IH seen (cells r :: seen')).
    assert (mask_sum (duplicated_from seen (List.filter f rs))
            <= mask_sum (duplicated_from (cells r :: seen') rs)) as Hle.
    { apply IH. intros k Hk. right. by apply Hsub. }
    lia.
Qed.

Lemma duplicated_dropna_le (t : DataFrame) :
  mask_sum (duplicated (dropna t)) <= mask_sum (duplicated t).
Proof.
  unfold duplicated. destruct (empty (dropna t)) eqn:He.
  - cbn. lia.
  - assert (empty t = false) as ->.
    { unfold empty, dropna in *. cbn [columns rows] in He.
      destruct (columns t); [done|]. by destruct (rows t). }
    unfold dropna. cbn [rows]. by apply duplicated_from_filter_le.
Qed.

Lemma pipeline_rows_dedup (sel : Selection) (t : DataFrame) :
  fill_nulls sel = false -> drop_dupes sel = true ->
  rows (pipeline sel t)
  = rows (drop_duplicates (apply_if (drop_nulls sel) dropna t)).
Proof.
  intros Hf Hd. unfold pipeline. by rewrite rename_if_rows, Hf, Hd.
Qed.

Lemma profile_inv (t : DataFrame) (p : Profile) :
  profile t = inr p ->
  null_counts p = isnull_sum t
  /\ total_nulls p = sum_list ((isnull_sum t).*2)
  /\ duplicate_count p = mask_sum (duplicated t)
  /\ empty_cols_of t (columns t) = inr (empty_cols p).
Proof.
  unfold profile. destruct (empty_cols_of t (columns t)) as [e|ec]; [done|].
  cbn. by intros [= <-].
Qed.

(** The mask of a frame with columns is the mask of its rows; a frame
    without columns has no row flagged. *)
Lemma duplicated_sum_rows (t : DataFrame) :
  columns t <> [] ->
  mask_sum (duplicated t) = mask_sum (duplicated_from [] (rows t)).
Proof.
  intros Hc. unfold duplicated, empty.
  destruct (columns t); [done|]. by destruct (rows t).
Qed.

Lemma duplicated_sum_no_columns (t : DataFrame) :
  columns t = [] -> mask_sum (duplicated t) = 0.
Proof. intros Hc. unfold duplicated, empty. by rewrite Hc. Qed.

(** Dropping rows by a test on their cells takes away at least as many
    rows as it takes away flagged rows. *)
Lemma duplicated_from_filter_loss (test : list Cell -> bool)
    (seen seen' : list (list Cell)) (rs : list Row) :
  (forall k, k ∈ seen' -> k ∈ seen \/ test k = false) ->
  mask_sum (duplicated_from seen' rs)
  + length (List.filter (fun r => test (cells r)) rs)
  <= length rs
     + mask_sum (duplicated_from seen
                   (List.filter (fun r => test (cells r)) rs)).
Proof.
  revert seen seen'. induction rs as [|r rs IH]; intros seen seen' Hinv;
    [done|].
  cbn [List.filter duplicated_from length]. rewrite mask_sum_cons.
  destruct (test (cells r)) eqn:Htest.
  - cbn [duplicated_from length]. rewrite mask_sum_cons.
    specialize (IH (cells r :: seen) (cells r :: seen')).
    assert (forall k, k ∈ cells r :: seen' ->
                      k ∈ cells r :: seen \/ test k = false) as Hinv'.
    { intros k. rewrite !elem_of_cons. intros [->|Hk]; [by left; left|].
      destruct (Hinv k Hk); [left; by right|by right]. }
    specialize (IH Hinv').
    repeat case_bool_decide; try lia.
    exfalso. destruct (Hinv (cells r)); [done|done|congruence].
  - specialize (IH seen (cells r :: seen')).
    assert (forall k, k ∈ cells r :: seen' ->
                      k ∈ seen \/ test k = false) as Hinv'.
    { intros k. rewrite elem_of_cons. intros [->|Hk]; [by right|].
      by apply Hinv. }
    specialize (IH Hinv'). case_bool_decide; lia.
Qed.

(** A change of the cells row by row keeps every flagged row flagged. *)
Lemma duplicated_from_fmap_le (g : list Cell -> list Cell)
    (seen seen' : list (list Cell)) (rs : list Row) :
  (forall k, k ∈ seen -> g k ∈ seen') ->
  mask_sum (duplicated_from seen rs)
  <= mask_sum (duplicated_from seen'
                 ((fun r => mkRow (label r) (g (cells r))) <$> rs)).
Proof.
  revert seen seen'. induction rs as [|r rs IH]; intros seen seen' Hinv;
    [done|].
  cbn [fmap list_fmap duplicated_from cells]. rewrite !mask_sum_cons.
  specialize (IH (cells r :: seen) (g (cells r) :: seen')).
  assert (forall k, k ∈ cells r :: seen -> g k ∈ g (cells r) :: seen')
    as Hinv'.
  { intros k. rewrite !elem_of_cons. intros [->|Hk]; [by left|].
    right. by apply Hinv. }
  specialize (IH Hinv'). cbn [fmap list_fmap] in IH.
  repeat case_bool_decide; try lia. exfalso. auto.
Qed.

Lemma duplicated_dropna_loss (t : DataFrame) :
  mask_sum (duplicated t) + length (rows (dropna t))
  <= length (rows t) + mask_sum (duplicated (dropna t)).
Proof.
  destruct (decide (columns t = [])) as [Hc|Hc].
  - rewrite (duplicated_sum_no_columns t Hc).
    assert (length (rows (dropna t)) <= length (rows t)); [|lia].
    apply sublist_length, list_filter_sublist.
  - rewrite (duplicated_sum_rows t Hc), (duplicated_sum_rows (dropna t) Hc).
    unfold dropna. cbn [rows].
    apply (duplicated_from_filter_loss (forallb notnull)).
    intros k Hk. by apply elem_of_nil in Hk.
Qed.

Lemma duplicated_fillna_le (v : Cell) (t : DataFrame) :
  mask_sum (duplicated t) <= mask_sum (duplicated (fillna v t)).
Proof.
  destruct (decide (columns t = [])) as [Hc|Hc].
  - rewrite (duplicated_sum_no_columns t Hc). lia.
  - rewrite (duplicated_sum_rows t Hc), (duplicated_sum_rows (fillna v t) Hc).
    unfold fillna. cbn [rows].
    apply (duplicated_from_fmap_le (fmap (fill_cell v))).
    intros k Hk. by apply elem_of_nil in Hk.
Qed.

(** With drop-duplicates selected, the rows that the cleaning removes are
    at least the rows that repeat an earlier row of the loaded table. *)
Lemma pipeline_rows_dedup_bound (sel : Selection) (t : DataFrame) :
  drop_dupes sel = true ->
  length (rows (pipeline sel t)) + mask_sum (duplicated t)
  <= length (rows t).
Proof.
  intros Hd. unfold pipeline. rewrite rename_if_rows, Hd. cbn [apply_if].
  set (x := apply_if (drop_nulls sel) dropna t).
  set (u := apply_if (fill_nulls sel) (fillna placeholder) x).
  pose proof (drop_duplicates_length u) as Hu.
  assert (mask_sum (duplicated t) + length (rows x)
          <= length (rows t) + mask_sum (duplicated x)) as Hx.
  { subst x. destruct (drop_nulls sel); cbn [apply_if]; [|lia].
    apply duplicated_dropna_loss. }
  assert (mask_sum (duplicated x) <= mask_sum (duplicated u)
          /\ length (rows u) = length (rows x)) as [Hxu Hlen].
  { subst u. destruct (fill_nulls sel); cbn [apply_if]; [|done].
    split; [apply duplicated_fillna_le|].
    unfold fillna. cbn [rows]. by rewrite length_fmap. }
  lia.
Qed.

(** X11. The null-value summary and the "Duplicate Rows Removed" figure of
    the report are those of the table as loaded, whatever was selected:
    the figure is the duplicate count of the loaded table also when
    drop-duplicates was not selected.  When drop-duplicates is selected and
    neither drop-nulls nor fill-nulls is, the figure is exactly the number
    of rows removed.  Whenever drop-duplicates is selected, the figure is
    at most the number of rows that the cleaning removed; and with
    drop-nulls before it and no fill, it is at least the number of rows
    that drop-duplicates removed. *)
Theorem report_counts_are_of_loaded_table
    (parse_csv : str -> result DataFrame)
    (read_excel : UploadedFile -> result DataFrame * UploadedFile)
    (st_dataframe : DataFrame -> result unit)
    (build_prompt : DataFrame -> str) (chat_complete : str -> result str)
    (to_csv : DataFrame -> str)
    (render_pdf : Report -> result (list Byte.byte))
    (w : Widgets) (name : str) (f : UploadedFile) (t : DataFrame)
    (r : Report) :
  uploaded_file w = Some (name, f) ->
  (load parse_csv read_excel name f).1 = inr t ->
  report_of (script parse_csv read_excel st_dataframe build_prompt chat_complete
    to_csv render_pdf w)
  = Some r ->
  null_summary r = isnull_sum t
  /\ duplicate_rows_removed r = mask_sum (duplicated t)
  /\ original_shape r = shape t
  /\ (drop_nulls (selection w) = false -> fill_nulls (selection w) = false ->
      drop_dupes (selection w) = true ->
      (cleaned_shape r).1 + duplicate_rows_removed r = (original_shape r).1)
  /\ (drop_dupes (selection w) = true ->
      (cleaned_shape r).1 + duplicate_rows_removed r
      <= (original_shape r).1)
  /\ (fill_nulls (selection w) = false -> drop_dupes (selection w) = true ->
      length (rows (dropna t))
      <= (cleaned_shape r).1 + duplicate_rows_removed r).
Proof.
  intros Hw Hload Hr.
  destruct (script_report _ _ _ _ _ _ _ _ _ Hr)
    as (name' & f' & t' & p & Hw' & Hload' & Hp & _ & _ & ->).
  rewrite Hw in Hw'. injection Hw' as <- <-.
  rewrite Hload in Hload'. injection Hload' as <-.
  cbn [null_summary duplicate_rows_removed original_shape cleaned_shape].
  destruct (profile_inv t p Hp) as (-> & _ & -> & _).
  split; [done|]. split; [done|]. split; [done|].
  unfold shape. cbn [fst]. split; [|split].
  - intros Hdrop Hfill Hdedup.
    rewrite (pipeline_rows_dedup _ _ Hfill Hdedup), Hdrop. cbn [apply_if].
    apply drop_duplicates_length.
  - apply pipeline_rows_dedup_bound.
  - intros Hfill Hdedup.
    rewrite (pipeline_rows_dedup _ _ Hfill Hdedup).
    destruct (drop_nulls (selection w)); cbn [apply_if].
    + pose proof (drop_duplicates_length (dropna t)).
      pose proof (duplicated_dropna_le t). lia.
    + pose proof (drop_duplicates_length t).
      assert (length (rows (dropna t)) <= length (rows t)); [|lia].
      apply sublist_length, list_filter_sublist.
Qed.

Lemma report_counts_are_of_loaded_table_witness :
  let r := mkReport (3, 2) (2, 2) [(lit "name", 0); (lit "age", 1)] 1
             [RemovedDuplicates] None in
  let sel := selection (people_run false true only_dedup) in
  null_summary r = isnull_sum people
  /\ duplicate_rows_removed r = mask_sum (duplicated people)
  /\ original_shape r = shape people
  /\ (drop_nulls sel = false -> fill_nulls sel = false ->
      drop_dupes sel = true ->
      (cleaned_shape r).1 + duplicate_rows_removed r = (original_shape r).1)
  /\ (drop_dupes sel = true ->
      (cleaned_shape r).1 + duplicate_rows_removed r
      <= (original_shape r).1)
  /\ (fill_nulls sel = false -> drop_dupes sel = true ->
      length (rows (dropna people))
      <= (cleaned_shape r).1 + duplicate_rows_removed r).
Proof.
  apply (report_counts_are_of_loaded_table simple_csv no_excel st_shown
           no_prompt chat_tips header_lines core_font_pdf
           (people_run false true only_dedup) (lit "people.csv")
           (upload people_csv) people); by vm_compute.
Defined.

(** With fill-nulls before it, drop-duplicates can remove more rows than
    the report says: no row of the loaded table repeats another, yet the
    filled rows are equal. *)
Example report_undercounts_after_fill :
  (apply_cleaning st_shown header_lines core_font_pdf
     (mkSelection false true true [])
     (mkSession
        {[ 0 := mkDF [lit "a"] [mkRow 0 [NA]; mkRow 1 [Text (lit "N/A")]] ]}
        0 [(lit "a", 1)] 0 [] None [])).1
  = inr (Some (mkReport (2, 1) (1, 1) [(lit "a", 1)] 0
                 [FilledNulls; RemovedDuplicates] None)).
Proof. by vm_compute. Qed.

(** The figure is in the report also when nothing was selected and no row
    was removed. *)
Example report_counts_without_dedup :
  report_of (script simple_csv no_excel st_shown no_prompt chat_tips
               header_lines core_font_pdf
               (people_run false true (mkSelection false false false [])))
  = Some (mkReport (3, 2) (3, 2) [(lit "name", 0); (lit "age", 1)] 1 []
            None).
Proof. by vm_compute. Qed.

(** ** Which reader a file name selects *)

Lemma rfind_from_notin (i : Z) (c : N) (s : str) :
  c ∉ s -> rfind_from i c s = (-1)%Z.
Proof.
  revert i. induction s as [|x s IH]; intros i Hn; [done|].
  apply not_elem_of_cons in Hn as [Hne Hn]. cbn [rfind_from].
  rewrite (IH _ Hn). cbn. by rewrite (proj2 (N.eqb_neq x c)) by congruence.
Qed.

Lemma rfind_from_last (i : Z) (c : N) (a b : str) :
  (0 <= i)%Z -> c ∉ b ->
  rfind_from i c (a ++ c :: b) = (i + Z.of_nat (length a))%Z.
Proof.
  revert i. induction a as [|x a IH]; intros i Hi Hn.
  - cbn [app rfind_from]. rewrite (rfind_from_notin _ _ _ Hn). cbn.
    rewrite N.eqb_refl. cbn [length]. lia.
  - cbn [app rfind_from]. rewrite IH by (done || lia).
    rewrite (proj2 (Z.leb_le _ _)) by lia. cbn [length]. lia.
Qed.

Lemma existsb_non_dot (stem : str) :
  (exists x, x ∈ stem /\ x <> extsep) ->
  existsb (fun x => negb (N.eqb x extsep)) stem = true.
Proof.
  intros (x & Hin & Hne). apply existsb_exists. exists x.
  split; [by apply list_elem_of_In|].
  by rewrite (proj2 (N.eqb_neq x extsep)).
Qed.

Lemma existsb_all_dots (stem : str) :
  Forall (fun x => x = extsep) stem ->
  existsb (fun x => negb (N.eqb x extsep)) stem = false.
Proof.
  induction 1 as [|x stem -> _ IH]; [done|]. cbn [existsb].
  by rewrite N.eqb_refl.
Qed.

Lemma splitext_name (stem e : str) :
  sep ∉ stem -> sep ∉ e -> extsep ∉ e ->
  splitext (stem ++ extsep :: e)
  = if existsb (fun x => negb (N.eqb x extsep)) stem
    then (stem, extsep :: e) else (stem ++ extsep :: e, []).
Proof.
  intros Hs He Hd. unfold splitext, rfind.
  rewrite (rfind_from_notin 0 sep).
  2:{ rewrite elem_of_app, elem_of_cons. intros [?|[?|?]]; done. }
  rewrite (rfind_from_last 0 extsep stem e) by done.
  rewrite (proj2 (Z.ltb_lt _ _)) by lia.
  unfold slice. replace (Z.to_nat (-1 + 1)) with 0 by lia.
  replace (Z.to_nat (0 + Z.of_nat (length stem))) with (length stem) by lia.
  rewrite Nat.sub_0_r, drop_0, take_app_length, drop_app_length.
  reflexivity.
Qed.

Lemma splitext_no_dot (name : str) :
  extsep ∉ name -> splitext name = (name, []).
Proof.
  intros Hd. unfold splitext, rfind. rewrite (rfind_from_notin 0 extsep) by done.
  destruct (rfind_from 0 sep name <? -1)%Z eqn:E; [|done].
  exfalso. apply Z.ltb_lt in E.
  assert (forall i s, (0 <= i)%Z -> (-1 <= rfind_from i sep s)%Z) as Hge.
  { clear. intros i s. revert i. induction s as [|x s IH]; intros i Hi;
      cbn [rfind_from]; [lia|].
    destruct (0 <=? rfind_from (i + 1) sep s)%Z eqn:E.
    - apply Z.leb_le in E. lia.
    - destruct (N.eqb x sep); lia. }
  specialize (Hge 0%Z name). lia.
Qed.

(** X12. Which reader a file name selects, for names without a slash.  A
    name [stem.ext] whose stem is not made of dots only goes to the CSV
    loader exactly when the extension is "csv" in lower case; every other
    extension (also "CSV" in upper case) goes to the spreadsheet reader,
    and so do a name without any dot and a name whose stem is empty or all
    dots, such as ".csv". *)
Theorem load_dispatches_on_extension (parse_csv : str -> result DataFrame)
    (read_excel : UploadedFile -> result DataFrame * UploadedFile)
    (f : UploadedFile) :
  (forall stem e,
     sep ∉ stem -> sep ∉ e -> extsep ∉ e ->
     (exists x, x ∈ stem /\ x <> extsep) ->
     load parse_csv read_excel (stem ++ extsep :: e) f
     = if decide (e = lit "csv") then load_csv parse_csv f
       else read_excel f)
  /\ (forall stem e,
        sep ∉ stem -> sep ∉ e -> extsep ∉ e ->
        Forall (fun x => x = extsep) stem ->
        load parse_csv read_excel (stem ++ extsep :: e) f = read_excel f)
  /\ (forall name,
        extsep ∉ name -> load parse_csv read_excel name f = read_excel f).
Proof.
  split; [|split].
  - intros stem e Hs He Hd Hx. unfold load.
    rewrite (splitext_name stem e Hs He Hd), (existsb_non_dot stem Hx).
    cbn [snd]. destruct (decide (e = lit "csv")) as [->|Hne].
    + by rewrite decide_True.
    + rewrite decide_False; [done|]. intros [= Heq]. by apply Hne.
  - intros stem e Hs He Hd Hall. unfold load.
    rewrite (splitext_name stem e Hs He Hd), (existsb_all_dots stem Hall).
    cbn [snd]. by rewrite decide_False.
  - intros name Hd. unfold load. rewrite (splitext_no_dot name Hd).
    cbn [snd]. by rewrite decide_False.
Qed.

Example load_people_csv :
  (load simple_csv no_excel (lit "people.csv") (upload people_csv)).1
  = inr people.
Proof. by vm_compute. Qed.

Example load_upper_case_extension :
  (load simple_csv no_excel (lit "people.CSV") (upload people_csv)).1
  = inl ValueError.
Proof. by vm_compute. Qed.

Example splitext_examples :
  splitext (lit "data.v2.csv") = (lit "data.v2", lit ".csv")
  /\ splitext (lit ".csv") = (lit ".csv", [])
  /\ splitext (lit "dir.d/readme") = (lit "dir.d/readme", [])
  /\ splitext (lit "a/..b") = (lit "a/..b", [])
  /\ splitext (lit "a/.b.c") = (lit "a/.b", lit ".c").
Proof. by vm_compute. Qed.

(** ** Decoding in chunks *)

Lemma prepend_nil (d : Decoded) : prepend [] d = d.
Proof. by destruct d. Qed.

Lemma resume_push (more : list N) (c : N) (d : Decoded) :
  resume more (push c d) = push c (resume more d).
Proof.
  destruct d as [text pending|]; [|done]. cbn [push resume].
  by destruct (utf8_decode (pending ++ more)).
Qed.

(** A second byte refused while the sequence is open is refused with the
    third byte too. *)
Lemma second_of_3_closed (b0 b1 : N) :
  second_of_3_open b0 b1 = false -> second_of_3 b0 b1 = false.
Proof.
  unfold second_of_3_open, second_of_3, continuation, between.
  destruct (b0 =? 224)%N; [done|]. destruct (b0 =? 237)%N; [|done].
  intros H. apply andb_false_iff in H as [H|H].
  - by rewrite H.
  - apply andb_false_iff. right. apply N.leb_gt in H. apply N.leb_gt. lia.
Qed.

Ltac resume_pending :=
  cbn [resume]; rewrite prepend_nil; cbn [app utf8_decode];
  repeat match goal with
         | H : ?c = _ |- context [if ?c then _ else _] => rewrite H
         end;
  reflexivity.

(** Decoding a byte string is decoding a first part of it and going on
    with the rest. *)
Lemma utf8_decode_app (a b : list N) :
  utf8_decode (a ++ b) = resume b (utf8_decode a).
Proof.
  remember (length a) as n eqn:Hn. revert a Hn.
  induction n as [n IH] using lt_wf_ind. intros a ->.
  assert (forall r, length r < length a ->
                    utf8_decode (r ++ b) = resume b (utf8_decode r)) as IHr.
  { intros r Hr. by apply (IH (length r)). }
  clear IH. destruct a as [|b0 r0].
  { cbn [app utf8_decode resume]. by rewrite prepend_nil. }
  cbn [app utf8_decode].
  destruct (b0 <? 128)%N eqn:E0.
  { rewrite resume_push, IHr by (cbn; lia). reflexivity. }
  destruct (between 194 223 b0) eqn:E1.
  { destruct r0 as [|b1 r1]; [resume_pending|]. cbn [app].
    destruct (continuation b1) eqn:C1; [|done].
    rewrite resume_push, IHr by (cbn; lia). reflexivity. }
  destruct (between 224 239 b0) eqn:E2.
  { destruct r0 as [|b1 r1]; [resume_pending|]. cbn [app].
    destruct r1 as [|b2 r2].
    - destruct (second_of_3_open b0 b1) eqn:C1; [resume_pending|].
      destruct b as [|b2 b]; cbn [app resume]; [done|].
      by rewrite (second_of_3_closed _ _ C1).
    - cbn [app]. destruct (second_of_3 b0 b1) eqn:C1; [|done].
      destruct (continuation b2) eqn:C2; [|done].
      rewrite resume_push, IHr by (cbn; lia). reflexivity. }
  destruct (between 240 244 b0) eqn:E3; [|done].
  destruct r0 as [|b1 r1]; [resume_pending|]. cbn [app].
  destruct (second_of_4 b0 b1) eqn:C1; [|done].
  destruct r1 as [|b2 r2]; [resume_pending|]. cbn [app].
  destruct (continuation b2) eqn:C2; [|done].
  destruct r2 as [|b3 r3]; [resume_pending|]. cbn [app].
  destruct (continuation b3) eqn:C3; [|done].
  rewrite resume_push, IHr by (cbn; lia). reflexivity.
Qed.

(** What the decoder does with a sequence that ends too early: a first
    half of a surrogate stays pending until the third byte comes, an
    overlong form and a value above U+10FFFF are refused on the second
    byte. *)
Example utf8_decode_open_sequences :
  utf8_decode [237; 160]%N = Complete [] [237; 160]%N
  /\ utf8_decode [237; 160; 128]%N = Malformed
  /\ utf8_decode [226; 130]%N = Complete [] [226; 130]%N
  /\ utf8_decode [224; 128]%N = Malformed
  /\ utf8_decode [240; 128]%N = Malformed
  /\ utf8_decode [244; 144]%N = Malformed
  /\ utf8_decode [240; 159; 152]%N = Complete [] [240; 159; 152]%N.
Proof. by vm_compute. Qed.

Lemma take_length_take {A} (n : nat) (l : list A) :
  take (length (take n l)) l = take n l.
Proof.
  rewrite length_take. destruct (Nat.le_ge_cases n (length l)).
  - by rewrite Nat.min_l by lia.
  - rewrite Nat.min_r by lia. by rewrite !take_ge by lia.
Qed.

(** The result of a UTF-8 read does not depend on how the content falls
    into chunks: it is the text of the whole content when that is valid
    UTF-8, and a decode error otherwise. *)
Lemma read_chunks_utf8 (fuel : nat) (pending : list N) (acc : str)
    (f : UploadedFile) :
  position f <= length (content f) ->
  length (content f) - position f < fuel ->
  utf8_decode (Byte.to_N <$> take (position f) (content f))
  = Complete acc pending ->
  exists f',
    read_chunks fuel UTF8 pending acc f
    = Some (match utf8_decode (Byte.to_N <$> content f) with
            | Complete text [] => inr text
            | _ => inl UnicodeDecodeError
            end, f').
Proof.
  revert pending acc f.
  induction fuel as [|fuel IH]; intros pending acc f Hp Hf Hinv; [lia|].
  cbn [read_chunks]. unfold read1.
  destruct (take chunk_size (drop (position f) (content f)))
    as [|b chunk] eqn:E.
  - assert (drop (position f) (content f) = []) as Hd.
    { destruct (drop (position f) (content f)) as [|x l]; [done|].
      pose proof chunk_size_pos. destruct chunk_size; [lia|done]. }
    apply (f_equal length) in Hd. rewrite length_drop in Hd.
    cbn [length] in Hd. rewrite take_ge in Hinv by lia. rewrite Hinv.
    cbn [fmap list_fmap]. destruct pending; by eexists.
  - assert (length (b :: chunk) <= length (content f) - position f) as Hlen.
    { rewrite <- E, length_take, length_drop. lia. }
    assert (Byte.to_N <$> take (position f + length (b :: chunk)) (content f)
            = (Byte.to_N <$> take (position f) (content f))
              ++ (Byte.to_N <$> (b :: chunk))) as Hprefix.
    { rewrite <- fmap_app. f_equal. rewrite <- E.
      rewrite <- take_take_drop. f_equal. apply take_length_take. }
    pose proof (utf8_decode_app
                  (Byte.to_N <$> take (position f) (content f))
                  (Byte.to_N <$> (b :: chunk))) as Happ.
    rewrite <- Hprefix, Hinv in Happ. cbn [resume] in Happ.
    cbn [fmap list_fmap] in *. unfold decode_chunk.
    destruct (utf8_decode (pending ++ Byte.to_N b :: (Byte.to_N <$> chunk)))
      as [text pending'|].
    + apply (IH pending' (acc ++ text)
               (mkFile (content f) (position f + length (b :: chunk))));
        cbn [content position length] in *; [lia|lia|].
      exact Happ.
    + eexists. do 2 f_equal.
      rewrite <- (take_drop (position f + length (b :: chunk)) (content f)).
      rewrite fmap_app, utf8_decode_app. cbn [length] in *.
      by rewrite Happ.
Qed.

Lemma read_text_utf8 (bytes : list Byte.byte) :
  (read_text UTF8 (upload bytes)).1
  = match utf8_decode (Byte.to_N <$> bytes) with
    | Complete text [] => inr text
    | _ => inl UnicodeDecodeError
    end.
Proof.
  pose proof (read_text_returns UTF8 (upload bytes)) as Hrun.
  destruct (read_chunks_utf8 (S (length (content (upload bytes))
                                 - position (upload bytes)))
              [] [] (upload bytes)) as [f' Hf'].
  - cbn. lia.
  - lia.
  - done.
  - rewrite Hf' in Hrun. injection Hrun as <-. reflexivity.
Qed.

(** X13. A CSV file whose content is valid UTF-8, whatever its size, is
    loaded at the first attempt: the result, a table or the tokenizer's
    error (as for an empty file), is that of the tokenizer on the text of
    the whole content; reading in chunks changes nothing and the fallback
    is not tried. *)
Theorem load_csv_valid_utf8 (parse_csv : str -> result DataFrame)
    (bytes : list Byte.byte) (text : str) :
  utf8_decode (Byte.to_N <$> bytes) = Complete text [] ->
  parse_csv text <> inl UnicodeDecodeError ->
  (load_csv parse_csv (upload bytes)).1 = parse_csv text.
Proof.
  intros Hdec Hparse. unfold load_csv, read_csv.
  pose proof (read_text_utf8 bytes) as Hread. rewrite Hdec in Hread.
  destruct (read_text UTF8 (upload bytes)) as [r f']. cbn [fst] in Hread.
  subst r. cbn [mbind result_bind].
  destruct (parse_csv text) as [[]|t]; try done.
Qed.

Lemma load_csv_valid_utf8_witness :
  (load_csv simple_csv (upload cafe_utf8)).1
  = simple_csv [110; 97; 109; 101; 10; 99; 97; 102; 233; 10]%N.
Proof.
  apply (load_csv_valid_utf8 simple_csv cafe_utf8); by vm_compute.
Defined.

(** An empty upload: nothing to decode, no columns, no second attempt. *)
Example load_csv_empty_file :
  load_csv simple_csv (upload []) = (inl EmptyDataError, mkFile [] 0).
Proof. by vm_compute. Qed.



(** ** More on the quality report *)

Lemma filter_isnull_notnull (cs : list Cell) :
  length (List.filter isnull cs) + count cs = length cs.
Proof.
  unfold count, notnull. induction cs as [|c cs IH]; [done|].
  cbn [List.filter length]. destruct (isnull c); cbn [negb length]; lia.
Qed.

Lemma empty_cols_member (df : DataFrame) (i : nat) (col : str) :
  NoDup (columns df) -> columns df !! i = Some col ->
  col ∈ List.filter (fun col => bool_decide (is_empty_col df col = inr true))
          (columns df)
  <-> count (series_at df i) = 0.
Proof.
  intros Hnd Hi.
  rewrite list_elem_of_In, filter_In, <- list_elem_of_In.
  rewrite bool_decide_eq_true, (is_empty_col_unique df i col Hnd Hi).
  split.
  - intros [_ Heq]. injection Heq as Heq. by apply Nat.eqb_eq.
  - intros Hz. split; [by eapply list_elem_of_lookup_2|].
    f_equal. by apply Nat.eqb_eq.
Qed.

(** X15. The null-value summary has one entry per column, in the order of
    the columns and under their names; the entry of a column and the
    column's count of non-missing cells add up to the number of rows, and
    the column is listed as empty exactly when its entry equals the number
    of rows. *)
Theorem null_counts_per_column (df : DataFrame) :
  Table_wf df ->
  exists p, profile df = inr p
    /\ (null_counts p).*1 = columns df
    /\ forall i col n, null_counts p !! i = Some (col, n) ->
         columns df !! i = Some col
         /\ n + count (series_at df i) = length (rows df)
         /\ (col ∈ empty_cols p <-> n = length (rows df)).
Proof.
  intros Hwf. pose proof Hwf as (Hnd & _ & _).
  eexists. split; [by apply profile_wf|]. cbn [null_counts empty_cols].
  unfold isnull_sum. split.
  - rewrite fmap_imap.
    rewrite (imap_ext _ (const id)) by done.
    by rewrite imap_const, list_fmap_id.
  - intros i col n Hi. rewrite list_lookup_imap in Hi.
    destruct (columns df !! i) as [col'|] eqn:Hcol; [|done].
    cbn in Hi. injection Hi as <- <-. split; [done|].
    pose proof (filter_isnull_notnull (series_at df i)) as Hsum.
    assert (length (series_at df i) = length (rows df)) as Hlen
      by (unfold series_at; by rewrite length_fmap).
    split; [lia|]. rewrite (empty_cols_member df i col' Hnd Hcol). lia.
Qed.

Lemma null_counts_per_column_witness :
  exists p, profile sample = inr p
    /\ (null_counts p).*1 = columns sample
    /\ forall i col n, null_counts p !! i = Some (col, n) ->
         columns sample !! i = Some col
         /\ n + count (series_at sample i) = length (rows sample)
         /\ (col ∈ empty_cols p <-> n = length (rows sample)).
Proof.
  apply (null_counts_per_column sample). solve_Table_wf.
Defined.

Lemma imap_snd_seq {A} (g : nat -> nat) (l : list A) :
  (imap (fun i c => (c, g i)) l).*2 = g <$> seq 0 (length l).
Proof.
  revert g. induction l as [|x l IH]; intros g; [done|].
  cbn [imap fmap list_fmap length seq]. f_equal.
  rewrite <- fmap_S_seq, <- list_fmap_compose. exact (IH (g ∘ S)).
Qed.

Lemma sum_list_fmap_add {A} (a b : A -> nat) (l : list A) :
  sum_list ((fun i => a i + b i) <$> l)
  = sum_list (a <$> l) + sum_list (b <$> l).
Proof. induction l as [|x l IH]; [done|]. cbn. lia. Qed.

Lemma sum_list_fmap_zero {A} (l : list A) :
  sum_list ((fun _ => 0) <$> l) = 0.
Proof. induction l as [|x l IH]; [done|]. cbn. lia. Qed.

(** The missing cells of a row, counted position by position. *)
Lemma missing_by_position (cs : list Cell) :
  sum_list ((fun i => if isnull (default NA (cs !! i)) then 1 else 0)
              <$> seq 0 (length cs))
  = length (List.filter isnull cs).
Proof.
  induction cs as [|c cs IH]; [done|].
  cbn [length seq fmap list_fmap sum_list]. rewrite <- fmap_S_seq.
  rewrite <- list_fmap_compose.
  rewrite (list_fmap_ext _
             (fun i => if isnull (default NA (cs !! i)) then 1 else 0)
             (seq 0 (length cs))) by done.
  rewrite IH. cbn [List.filter]. change ((c :: cs) !! 0) with (Some c).
  cbn [default from_option]. unfold id.
  destruct (isnull c); cbn [length]; lia.
Qed.

(** Counting the missing cells column by column or row by row gives the
    same total. *)
Lemma isnull_sum_by_rows (df : DataFrame) :
  Forall (fun r => length (cells r) = length (columns df)) (rows df) ->
  sum_list ((isnull_sum df).*2)
  = sum_list ((fun r => length (List.filter isnull (cells r))) <$> rows df).
Proof.
  intros Hrect. unfold isnull_sum.
  rewrite (imap_snd_seq
             (fun i => length (List.filter isnull (series_at df i)))).
  unfold series_at. induction Hrect as [|r rs Hr _ IH].
  - cbn. apply sum_list_fmap_zero.
  - cbn [fmap list_fmap sum_list]. rewrite <- IH, <- missing_by_position, Hr.
    unfold id. rewrite <- sum_list_fmap_add. f_equal. apply list_fmap_ext.
    intros _ i _. cbn [List.filter].
    destruct (isnull _); cbn [length]; lia.
Qed.

Lemma sum_list_zero (l : list nat) :
  sum_list l = 0 <-> forall n, n ∈ l -> n = 0.
Proof.
  induction l as [|x l IH]; cbn.
  - split; [|done]. intros _ n Hn. by apply elem_of_nil in Hn.
  - split.
    + intros H n Hn. apply elem_of_cons in Hn as [->|Hn]; [lia|].
      apply IH; [lia|done].
    + intros H. rewrite (H x) by left.
      apply IH. intros n Hn. apply H. by right.
Qed.

Lemma filter_isnull_nil (cs : list Cell) :
  length (List.filter isnull cs) = 0 <-> forallb notnull cs = true.
Proof.
  unfold notnull. induction cs as [|c cs IH]; [done|].
  cbn [List.filter forallb]. destruct (isnull c); cbn [negb length andb].
  - split; [lia|done].
  - exact IH.
Qed.

Lemma rows_missing_zero (t : DataFrame) :
  sum_list ((fun r => length (List.filter isnull (cells r))) <$> rows t) = 0
  <-> no_missing t.
Proof.
  rewrite sum_list_zero, no_missing_forallb. split.
  - intros H r Hr. apply filter_isnull_nil, H.
    apply list_elem_of_fmap. by exists r.
  - intros H n Hn. apply list_elem_of_fmap in Hn as (r & -> & Hr).
    by apply filter_isnull_nil, H.
Qed.

Lemma dropna_fixed_iff (t : DataFrame) : dropna t = t <-> no_missing t.
Proof.
  split; [|apply dropna_id]. intros <-. apply dropna_no_missing.
Qed.

(** X16. "Total Missing Values" is the number of missing-marker cells of
    the table, counted row by row; it is zero exactly when the table has
    no missing cell, which is exactly when drop-nulls would return the
    table as it is. *)
Theorem total_nulls_counts_missing_cells (df : DataFrame) :
  Table_wf df ->
  exists p, profile df = inr p
    /\ total_nulls p
       = sum_list ((fun r => length (List.filter isnull (cells r)))
                     <$> rows df)
    /\ (total_nulls p = 0 <-> no_missing df)
    /\ (total_nulls p = 0 <-> dropna df = df).
Proof.
  intros Hwf. pose proof Hwf as (_ & Hrect & _).
  eexists. split; [by apply profile_wf|]. cbn [total_nulls].
  rewrite (isnull_sum_by_rows df Hrect). split; [done|].
  rewrite dropna_fixed_iff. split; apply rows_missing_zero.
Qed.

Lemma total_nulls_counts_missing_cells_witness :
  exists p, profile sample = inr p
    /\ total_nulls p
       = sum_list ((fun r => length (List.filter isnull (cells r)))
                     <$> rows sample)
    /\ (total_nulls p = 0 <-> no_missing sample)
    /\ (total_nulls p = 0 <-> dropna sample = sample).
Proof.
  apply (total_nulls_counts_missing_cells sample). solve_Table_wf.
Defined.

(** ** More on the rename text *)

Lemma split_app_sep (sep : N) (a b : str) :
  sep ∉ a -> split sep (a ++ sep :: b) = a :: split sep b.
Proof.
  induction a as [|x a IH]; intros Hn.
  - cbn [app split]. by rewrite N.eqb_refl.
  - apply not_elem_of_cons in Hn as [Hne Hn]. cbn [app split].
    rewrite (proj2 (N.eqb_neq x sep)) by congruence.
    by rewrite (IH Hn).
Qed.

(** X17. Only the first two pieces of a pair count: in a pair with more
    than one colon the old name is the text before the first colon, the
    new name the text between the first and the second, and what follows
    the second colon is dropped without a warning. *)
Theorem parse_pair_ignores_after_second_colon (k v rest : str) :
  colon ∉ k -> colon ∉ v ->
  parse_pair (k ++ colon :: v ++ colon :: rest) = inr (strip k, strip v)
  /\ parse_pair (k ++ colon :: v ++ colon :: rest)
     = parse_pair (k ++ colon :: v).
Proof.
  intros Hk Hv. unfold parse_pair.
  rewrite !(split_app_sep colon k) by done.
  rewrite (split_app_sep colon v) by done.
  rewrite (split_without_sep colon v) by done.
  destruct (split_cons_inv colon rest) as (w & ws & ->). by split.
Qed.

Lemma parse_pair_ignores_after_second_colon_witness :
  parse_pair (lit "a" ++ colon :: lit "b" ++ colon :: lit "c")
  = inr (strip (lit "a"), strip (lit "b"))
  /\ parse_pair (lit "a" ++ colon :: lit "b" ++ colon :: lit "c")
     = parse_pair (lit "a" ++ colon :: lit "b").
Proof.
  apply (parse_pair_ignores_after_second_colon (lit "a") (lit "b") (lit "c"));
    by apply (bool_decide_unpack _); vm_compute.
Defined.

Lemma lstrip_spaces (p : str) :
  Forall (fun c => isspace c = true) p -> lstrip p = [].
Proof. induction 1 as [|c p Hc _ IH]; [done|]. cbn [lstrip]. by rewrite Hc. Qed.

Lemma lstrip_pad (p s : str) :
  Forall (fun c => isspace c = true) p -> lstrip (p ++ s) = lstrip s.
Proof.
  induction 1 as [|c p Hc _ IH]; [done|]. cbn [app lstrip]. by rewrite Hc.
Qed.

Lemma rstrip_pad (s p : str) :
  Forall (fun c => isspace c = true) p -> rstrip (s ++ p) = rstrip s.
Proof.
  intros Hp. unfold rstrip. rewrite reverse_app, lstrip_pad; [done|].
  by apply Forall_reverse.
Qed.

Lemma rstrip_lstrip_pad (s p : str) :
  Forall (fun c => isspace c = true) p ->
  rstrip (lstrip (s ++ p)) = rstrip (lstrip s).
Proof.
  intros Hp. induction s as [|c s IH].
  - cbn [app]. by rewrite (lstrip_spaces p Hp).
  - cbn [app lstrip]. destruct (isspace c); [exact IH|].
    exact (rstrip_pad (c :: s) p Hp).
Qed.

(** White space around a text does not change what [strip] makes of it. *)
Lemma strip_pad (p1 s p2 : str) :
  Forall (fun c => isspace c = true) p1 ->
  Forall (fun c => isspace c = true) p2 ->
  strip (p1 ++ s ++ p2) = strip s.
Proof.
  intros H1 H2. unfold strip. rewrite (lstrip_pad p1 _ H1).
  by apply rstrip_lstrip_pad.
Qed.

Lemma spaces_without_colon (p : str) :
  Forall (fun c => isspace c = true) p -> colon ∉ p.
Proof.
  intros Hp Hin. rewrite Forall_forall in Hp. by specialize (Hp _ Hin).
Qed.

(** X18. White space around the old and the new name of a pair is
    ignored: a pair padded with white space on either side of either name
    parses to the same old and new names as the pair without the
    padding. *)
Theorem parse_pair_ignores_padding (p1 k p2 p3 v p4 : str) :
  Forall (fun c => isspace c = true) p1 ->
  Forall (fun c => isspace c = true) p2 ->
  Forall (fun c => isspace c = true) p3 ->
  Forall (fun c => isspace c = true) p4 ->
  colon ∉ k -> colon ∉ v ->
  parse_pair ((p1 ++ k ++ p2) ++ colon :: (p3 ++ v ++ p4))
  = parse_pair (k ++ colon :: v).
Proof.
  intros H1 H2 H3 H4 Hk Hv. unfold parse_pair.
  assert (colon ∉ p1 ++ k ++ p2) as Hl.
  { rewrite !elem_of_app. intros [Hin|[Hin|Hin]]; [|done|].
    - exact (spaces_without_colon _ H1 Hin).
    - exact (spaces_without_colon _ H2 Hin). }
  assert (colon ∉ p3 ++ v ++ p4) as Hr.
  { rewrite !elem_of_app. intros [Hin|[Hin|Hin]]; [|done|].
    - exact (spaces_without_colon _ H3 Hin).
    - exact (spaces_without_colon _ H4 Hin). }
  rewrite (split_app_sep colon _ _ Hl), (split_without_sep colon _ Hr).
  rewrite (split_app_sep colon _ _ Hk), (split_without_sep colon _ Hv).
  cbn. by rewrite !strip_pad.
Qed.

Lemma parse_pair_ignores_padding_witness :
  parse_pair (([32%N] ++ lit "Age" ++ [32%N; 32%N])
              ++ colon :: ([9%N] ++ lit "Years" ++ [32%N]))
  = parse_pair (lit "Age" ++ colon :: lit "Years").
Proof.
  apply (parse_pair_ignores_padding [32%N] (lit "Age") [32%N; 32%N] [9%N]
           (lit "Years") [32%N]);
    try (by repeat constructor);
    by apply (bool_decide_unpack _); vm_compute.
Defined.

(** ** The CSV download read back *)

Ltac div_lia := zify; Z.to_euclidean_division_equations; lia.

Lemma lor_shiftl_low (hi lo k : N) :
  (lo < 2 ^ k)%N -> N.lor (N.shiftl hi k) lo = (hi * 2 ^ k + lo)%N.
Proof.
  intros Hlo. rewrite N.shiftl_mul_pow2.
  assert (N.land (hi * 2 ^ k) lo = 0%N) as Hland.
  { apply N.bits_inj. intros m. rewrite N.land_spec, N.bits_0.
    destruct (N.lt_ge_cases m k) as [Hm|Hm].
    - by rewrite N.mul_pow2_bits_low.
    - destruct (N.eq_dec lo 0%N) as [->|Hne];
        [by rewrite N.bits_0, andb_false_r|].
      rewrite (N.bits_above_log2 lo m), andb_false_r; [done|].
      apply N.log2_lt_pow2; [lia|]. eapply N.lt_le_trans; [exact Hlo|].
      apply N.pow_le_mono_r; lia. }
  rewrite <- N.lxor_lor by done. symmetry. by apply N.add_nocarry_lxor.
Qed.

Lemma land_low (k base x : N) :
  (base mod 2 ^ k = 0)%N -> (x < 2 ^ k)%N ->
  N.land (base + x) (N.ones k) = x.
Proof.
  intros Hbase Hx. rewrite N.land_ones.
  rewrite N.Div0.add_mod, Hbase, N.add_0_l, N.Div0.mod_mod.
  by apply N.mod_small.
Qed.

Lemma low6_cont (x : N) : (x < 64)%N -> low6 (128 + x) = x.
Proof. intros Hx. by apply (land_low 6 128 x). Qed.

Lemma between_true (lo hi b : N) :
  (lo <= b <= hi)%N -> between lo hi b = true.
Proof.
  intros [H1 H2]. unfold between.
  by rewrite (proj2 (N.leb_le _ _) H1), (proj2 (N.leb_le _ _) H2).
Qed.

Lemma between_false (lo hi b : N) :
  (b < lo \/ hi < b)%N -> between lo hi b = false.
Proof.
  intros H. unfold between. apply andb_false_iff.
  destruct H; [left|right]; by apply N.leb_gt.
Qed.

Lemma continuation_cont (x : N) : (x < 64)%N -> continuation (128 + x) = true.
Proof. intros Hx. apply between_true. lia. Qed.

(** The bytes of one encoded code point decode to that code point. *)
Lemma encode_char_decode (c : N) (bs rest : list N) :
  encode_char c = Some bs ->
  utf8_decode (bs ++ rest) = push c (utf8_decode rest)
  /\ Forall (fun b => (b < 256)%N) bs.
Proof.
  unfold encode_char.
  destruct (N.ltb_spec c 128) as [H1|H1].
  { intros [= <-]. cbn [app utf8_decode].
    rewrite (proj2 (N.ltb_lt _ _) H1). split; [done|].
    repeat constructor. lia. }
  destruct (N.ltb_spec c 2048) as [H2|H2].
  { intros [= <-]. cbn [app utf8_decode].
    assert (c / 64 < 32)%N as Hq by div_lia.
    assert (2 <= c / 64)%N as Hq' by div_lia.
    assert (c mod 64 < 64)%N as Hr by div_lia.
    rewrite (proj2 (N.ltb_ge _ _)) by div_lia.
    rewrite between_true by lia. rewrite continuation_cont by done.
    rewrite low6_cont by done.
    change 31%N with (N.ones 5). rewrite (land_low 5 192) by done.
    rewrite (lor_shiftl_low _ _ 6) by done.
    replace (c / 64 * 2 ^ 6 + c mod 64)%N with c by div_lia.
    split; [done|]. repeat constructor; lia. }
  destruct (N.ltb_spec c 65536) as [H3|H3].
  { destruct (between 55296 57343 c) eqn:Hs; [done|]. intros [= <-].
    assert (c < 55296 \/ 57343 < c)%N as Hs'.
    { unfold between in Hs. apply andb_false_iff in Hs.
      destruct Hs as [Hs|Hs]; apply N.leb_gt in Hs; lia. }
    cbn [app utf8_decode].
    assert (c / 4096 < 16)%N as Hq by div_lia.
    assert ((c / 64) mod 64 < 64)%N as Hm by div_lia.
    assert (c mod 64 < 64)%N as Hr by div_lia.
    rewrite (proj2 (N.ltb_ge _ _)) by div_lia.
    rewrite (between_false 194 223) by div_lia.
    rewrite (between_true 224 239) by div_lia.
    assert (second_of_3 (224 + c / 4096) (128 + (c / 64) mod 64) = true)
      as ->.
    { unfold second_of_3.
      destruct (N.eqb_spec (224 + c / 4096) 224) as [E|E].
      - apply between_true. div_lia.
      - destruct (N.eqb_spec (224 + c / 4096) 237) as [E'|E'].
        + apply between_true. div_lia.
        + by apply continuation_cont. }
    rewrite continuation_cont by done. rewrite !low6_cont by done.
    change 15%N with (N.ones 4). rewrite (land_low 4 224) by done.
    rewrite (lor_shiftl_low _ _ 6) by done.
    rewrite (lor_shiftl_low _ _ 12) by (change (2 ^ 12)%N with 4096%N;
                                        change (2 ^ 6)%N with 64%N; lia).
    replace (c / 4096 * 2 ^ 12 + ((c / 64) mod 64 * 2 ^ 6 + c mod 64))%N
      with c by div_lia.
    split; [done|]. repeat constructor; lia. }
  destruct (N.ltb_spec c 1114112) as [H4|H4]; [|done].
  intros [= <-]. cbn [app utf8_decode].
  assert (c / 262144 < 5)%N as Hq by div_lia.
  assert ((c / 4096) mod 64 < 64)%N as Hm1 by div_lia.
  assert ((c / 64) mod 64 < 64)%N as Hm2 by div_lia.
  assert (c mod 64 < 64)%N as Hr by div_lia.
  rewrite (proj2 (N.ltb_ge _ _)) by div_lia.
  rewrite (between_false 194 223) by div_lia.
  rewrite (between_false 224 239) by div_lia.
  rewrite (between_true 240 244) by div_lia.
  assert (second_of_4 (240 + c / 262144) (128 + (c / 4096) mod 64) = true)
    as ->.
  { unfold second_of_4.
    destruct (N.eqb_spec (240 + c / 262144) 240) as [E|E].
    - apply between_true. div_lia.
    - destruct (N.eqb_spec (240 + c / 262144) 244) as [E'|E'].
      + apply between_true. div_lia.
      + by apply continuation_cont. }
  rewrite !continuation_cont by done. rewrite !low6_cont by done.
  change 7%N with (N.ones 3). rewrite (land_low 3 240) by (done || lia).
  rewrite (lor_shiftl_low _ _ 6) by done.
  rewrite (lor_shiftl_low _ _ 12) by (change (2 ^ 12)%N with 4096%N;
                                      change (2 ^ 6)%N with 64%N; lia).
  rewrite (lor_shiftl_low _ _ 18) by (change (2 ^ 18)%N with 262144%N;
                                      change (2 ^ 12)%N with 4096%N;
                                      change (2 ^ 6)%N with 64%N; lia).
  replace (c / 262144 * 2 ^ 18
           + ((c / 4096) mod 64 * 2 ^ 12
              + ((c / 64) mod 64 * 2 ^ 6 + c mod 64)))%N
    with c by div_lia.
  split; [done|]. repeat constructor; lia.
Qed.

Lemma utf8_encode_decode (text : str) (bs : list N) :
  utf8_encode text = Some bs ->
  utf8_decode bs = Complete text [] /\ Forall (fun b => (b < 256)%N) bs.
Proof.
  revert bs. induction text as [|c text IH]; intros bs.
  - intros [= <-]. by split.
  - cbn [utf8_encode].
    destruct (encode_char c) as [b1|] eqn:Ec; [|done].
    destruct (utf8_encode text) as [rest|]; [|done]. intros [= <-].
    destruct (encode_char_decode c b1 rest Ec) as [Hdec Hb1].
    destruct (IH rest eq_refl) as [Hrest Hbr].
    split; [|by apply Forall_app]. by rewrite Hdec, Hrest.
Qed.

Lemma to_N_byte_of (n : N) : (n < 256)%N -> Byte.to_N (byte_of n) = n.
Proof.
  intros Hn. unfold byte_of. destruct (Byte.of_N n) as [b|] eqn:E.
  - by apply Byte.to_of_N.
  - apply Byte.of_N_None_iff in E. lia.
Qed.

Lemma to_N_byte_of_list (bs : list N) :
  Forall (fun b => (b < 256)%N) bs -> Byte.to_N <$> (byte_of <$> bs) = bs.
Proof.
  induction 1 as [|b bs Hb _ IH]; [done|]. cbn [fmap list_fmap].
  f_equal; [by apply to_N_byte_of|exact IH].
Qed.

(** X19. The bytes offered as "cleaned_data.csv" are valid UTF-8 and
    decode to the text that was serialized; uploaded again, the file is
    read at the first attempt, whatever its size, and the tokenizer is
    given exactly that text. *)
Theorem csv_download_reads_back (to_csv : DataFrame -> str)
    (parse_csv : str -> result DataFrame) (cleaned : DataFrame)
    (bytes : list Byte.byte) :
  csv_download to_csv cleaned = Some bytes ->
  utf8_decode (Byte.to_N <$> bytes) = Complete (to_csv cleaned) []
  /\ (parse_csv (to_csv cleaned) <> inl UnicodeDecodeError ->
      (load_csv parse_csv (upload bytes)).1 = parse_csv (to_csv cleaned)).
Proof.
  unfold csv_download.
  destruct (utf8_encode (to_csv cleaned)) as [bs|] eqn:E; [|done].
  intros [= <-]. destruct (utf8_encode_decode _ _ E) as [Hdec Hb].
  rewrite (to_N_byte_of_list bs Hb). split; [done|].
  intros Hparse. unfold load_csv, read_csv.
  pose proof (read_text_utf8 (byte_of <$> bs)) as Hread.
  rewrite (to_N_byte_of_list bs Hb), Hdec in Hread.
  destruct (read_text UTF8 (upload (byte_of <$> bs))) as [r f'].
  cbn [fst] in Hread. subst r. cbn [mbind result_bind].
  destruct (parse_csv (to_csv cleaned)) as [[]|t]; try done.
Qed.

Lemma csv_download_reads_back_witness :
  utf8_decode
    (Byte.to_N <$> [Byte.x63; Byte.x61; Byte.x66; Byte.xc3; Byte.xa9;
                    Byte.x0a])
  = Complete (header_lines (mkDF [[99; 97; 102; 233]%N] [])) []
  /\ (simple_csv (header_lines (mkDF [[99; 97; 102; 233]%N] []))
      <> inl UnicodeDecodeError ->
      (load_csv simple_csv
         (upload [Byte.x63; Byte.x61; Byte.x66; Byte.xc3; Byte.xa9;
                  Byte.x0a])).1
      = simple_csv (header_lines (mkDF [[99; 97; 102; 233]%N] []))).
Proof.
  apply (csv_download_reads_back header_lines simple_csv
           (mkDF [[99; 97; 102; 233]%N] [])).
  by vm_compute.
Defined.

(** ** The quality report and the null handling *)

Lemma dropna_rows_bound (rs : list Row) :
  length rs
  <= length (List.filter (fun r => forallb notnull (cells r)) rs)
     + sum_list ((fun r => length (List.filter isnull (cells r))) <$> rs).
Proof.
  induction rs as [|r rs IH]; [done|].
  cbn [List.filter fmap list_fmap length]. cbn.
  destruct (forallb notnull (cells r)) eqn:Hr; cbn [length].
  - lia.
  - assert (length (List.filter isnull (cells r)) <> 0); [|lia].
    intros Hz. apply filter_isnull_nil in Hz. congruence.
Qed.

Lemma dropna_rows_shrink (rs : list Row) :
  0 < sum_list ((fun r => length (List.filter isnull (cells r))) <$> rs) ->
  length (List.filter (fun r => forallb notnull (cells r)) rs) < length rs.
Proof.
  induction rs as [|r rs IH]; cbn; [lia|]. intros Hpos.
  pose proof (sublist_length _ _
                (list_filter_sublist
                   (fun r => forallb notnull (cells r)) rs)) as Hle.
  destruct (forallb notnull (cells r)) eqn:Hr; cbn [length]; [|lia].
  apply filter_isnull_nil in Hr. rewrite Hr in Hpos.
  specialize (IH Hpos). lia.
Qed.

(** X20. Drop-nulls against "Total Missing Values": when the total is
    positive drop-nulls removes at least one row, and it never removes
    more rows than there are missing cells. *)
Theorem dropna_removes_at_most_total_nulls (df : DataFrame) :
  Table_wf df ->
  exists p, profile df = inr p
    /\ length (rows df) <= length (rows (dropna df)) + total_nulls p
    /\ (0 < total_nulls p -> length (rows (dropna df)) < length (rows df)).
Proof.
  intros Hwf. pose proof Hwf as (_ & Hrect & _).
  eexists. split; [by apply profile_wf|]. cbn [total_nulls].
  rewrite (isnull_sum_by_rows df Hrect). unfold dropna. cbn [rows].
  split; [apply dropna_rows_bound|apply dropna_rows_shrink].
Qed.

Lemma dropna_removes_at_most_total_nulls_witness :
  exists p, profile sample = inr p
    /\ length (rows sample) <= length (rows (dropna sample)) + total_nulls p
    /\ (0 < total_nulls p ->
        length (rows (dropna sample)) < length (rows sample)).
Proof.
  apply (dropna_removes_at_most_total_nulls sample). solve_Table_wf.
Defined.

Lemma fill_cells_placeholders (cs : list Cell) :
  length (List.filter is_placeholder (fill_cell placeholder <$> cs))
  = length (List.filter is_placeholder cs) + length (List.filter isnull cs).
Proof.
  induction cs as [|c cs IH]; [done|].
  cbn [fmap list_fmap List.filter].
  assert (is_placeholder (fill_cell placeholder c)
          = is_placeholder c || isnull c) as ->.
  { unfold is_placeholder. destruct c; cbn [fill_cell isnull];
      repeat case_bool_decide; done. }
  assert (is_placeholder c && isnull c = false) as Hex.
  { unfold is_placeholder. destruct c; cbn [isnull];
      repeat case_bool_decide; done. }
  destruct (is_placeholder c), (isnull c); try discriminate Hex;
    cbn [orb length]; lia.
Qed.

(** X21. Fill-nulls writes the placeholder into exactly as many cells as
    the quality report counted as missing: the cells that hold the text
    "N/A" after the fill are those that held it before plus the missing
    cells of the table. *)
Theorem fillna_fills_total_nulls (df : DataFrame) :
  Table_wf df ->
  exists p, profile df = inr p
    /\ cells_where is_placeholder (fillna placeholder df)
       = cells_where is_placeholder df + total_nulls p
    /\ cells_where isnull (fillna placeholder df) = 0.
Proof.
  intros Hwf. pose proof Hwf as (_ & Hrect & _).
  eexists. split; [by apply profile_wf|]. cbn [total_nulls].
  rewrite (isnull_sum_by_rows df Hrect). unfold cells_where, fillna.
  cbn [rows]. split.
  - clear Hrect Hwf. induction (rows df) as [|r rs IH]; [done|].
    cbn [fmap list_fmap]. cbn. cbn in IH. rewrite IH.
    rewrite fill_cells_placeholders. lia.
  - exact (proj2 (rows_missing_zero (fillna placeholder df))
                   (fillna_no_missing df)).
Qed.

Lemma fillna_fills_total_nulls_witness :
  exists p, profile sample = inr p
    /\ cells_where is_placeholder (fillna placeholder sample)
       = cells_where is_placeholder sample + total_nulls p
    /\ cells_where isnull (fillna placeholder sample) = 0.
Proof.
  apply (fillna_fills_total_nulls sample). solve_Table_wf.
Defined.

(** ** Renaming onto an existing name *)

Lemma rename_stage_applied (spec : str) (c : ref) (s : Session)
    (t : DataFrame) :
  spec <> [] ->
  (forall item, item ∈ split comma spec -> colon ∈ item) ->
  heap s !! c = Some t ->
  heap (rename_stage spec c s).2 !! (rename_stage spec c s).1
  = Some (mkDF (renamed (split comma spec) <$> columns t) (rows t))
  /\ ui (rename_stage spec c s).2 = ui s.
Proof.
  intros Hne Hall Ht. unfold rename_stage.
  rewrite (truthy_nonempty spec Hne).
  destruct (parse_mappings_returns spec Hall) as (m & -> & Hm).
  destruct (call_run (rename m) c s t Ht)
    as (c' & s' & -> & Hc' & _ & Hui & _).
  cbn [fst snd]. split; [|done]. rewrite Hc'. unfold rename. do 2 f_equal.
  apply list_fmap_ext. intros i col _. unfold renamed. by rewrite Hm.
Qed.

Lemma fmap_not_NoDup {A B} (g : A -> B) (l : list A) (x y : A) :
  x ∈ l -> y ∈ l -> x <> y -> g x = g y -> ~ NoDup (g <$> l).
Proof.
  intros Hx Hy Hne Heq Hnd.
  apply list_elem_of_lookup in Hx as [i Hi].
  apply list_elem_of_lookup in Hy as [j Hj].
  assert (i = j) as ->.
  { apply (NoDup_lookup (g <$> l) i j (g x)); [done| |].
    - by rewrite list_lookup_fmap, Hi.
    - by rewrite list_lookup_fmap, Hj, Heq. }
  congruence.
Qed.

(** X22. The rename does not check for collisions: when the pairs give a
    column the name of another column that they leave alone, the renamed
    table has two columns of that name, and nothing is written to the
    page. *)
Theorem rename_onto_existing_name (spec : str) (c : ref) (s : Session)
    (t : DataFrame) (a b : str) :
  spec <> [] ->
  (forall item, item ∈ split comma spec -> colon ∈ item) ->
  heap s !! c = Some t ->
  a ∈ columns t -> b ∈ columns t -> a <> b ->
  renamed (split comma spec) a = b ->
  renamed (split comma spec) b = b ->
  exists t', heap (rename_stage spec c s).2 !! (rename_stage spec c s).1
             = Some t'
    /\ ~ NoDup (columns t')
    /\ ui (rename_stage spec c s).2 = ui s.
Proof.
  intros Hne Hall Ht Ha Hb Hab Hra Hrb.
  destruct (rename_stage_applied spec c s t Hne Hall Ht) as [Hres Hui].
  eexists. split; [exact Hres|]. split; [|done]. cbn [columns].
  apply (fmap_not_NoDup _ _ a b); congruence.
Qed.

Lemma rename_onto_existing_name_witness :
  exists t',
    heap (rename_stage (lit "a:b") 0 (single two_columns)).2
      !! (rename_stage (lit "a:b") 0 (single two_columns)).1 = Some t'
    /\ ~ NoDup (columns t')
    /\ ui (rename_stage (lit "a:b") 0 (single two_columns)).2
       = ui (single two_columns).
Proof.
  apply (rename_onto_existing_name (lit "a:b") 0 (single two_columns)
           two_columns (lit "a") (lit "b")).
  - discriminate.
  - apply Forall_forall. by apply (bool_decide_unpack _); vm_compute.
  - reflexivity.
  - by apply (bool_decide_unpack _); vm_compute.
  - by apply (bool_decide_unpack _); vm_compute.
  - discriminate.
  - by vm_compute.
  - by vm_compute.
Defined.
